(** * Event waves of [sverchok/core/events.py]

    A shallow embedding of the module that collects Blender update signals
    into waves, converts an ended wave into Sverchok events, keeps a
    reconstruction of every node tree and drives redrawing and recomputation.

    Python objects that the module mutates live in an explicit [World];
    methods are computations in a state-and-exception monad over it, so the
    state a raised exception leaves behind stays visible. *)

From stdpp Require Import base option list strings pretty gmap fin_maps.

Open Scope string_scope.
Open Scope list_scope.

(** ** Exceptions and results *)

Inductive Exn : Type :=
| RuntimeError (msg : string)
| AttributeError (attr : string)
| IndexError
| KeyError (key : string)
| LookupError (msg : string)
| TypeError (msg : string)
| RecursionError
| HostError (tag : string).   (* raised inside a host callable *)

Inductive Result (A : Type) : Type :=
| Ok (a : A)
| Raised (e : Exn).
Arguments Ok {A} a.
Arguments Raised {A} e.

(** ** The two enumerations *)

Module BlenderEventsTypes.
Inductive t : Type :=
| tree_update
| monad_tree_update
| node_update
| add_node
| copy_node
| free_node
| add_link_to_node
| node_property_update
| undo
| frame_change.

#[global] Instance eq_dec : EqDecision t.
Proof. solve_decision. Defined.

(** Python's [==] on enum members. *)
Definition eqb (a b : t) : bool := bool_decide (a = b).
End BlenderEventsTypes.

Module SverchokEventsTypes.
Inductive t : Type :=
| add_node
| copy_node
| free_node
| node_property_update
| node_link_update
| undo
| undefined
| frame_change.

#[global] Instance eq_dec : EqDecision t.
Proof. solve_decision. Defined.

Definition eqb (a b : t) : bool := bool_decide (a = b).
End SverchokEventsTypes.

(** [EVENT_CONVERSION]: the dict has an entry for each of the ten members,
    so the subscript [EVENT_CONVERSION[self.type]] never misses. *)
Definition EVENT_CONVERSION (k : BlenderEventsTypes.t) : SverchokEventsTypes.t :=
  match k with
  | BlenderEventsTypes.tree_update => SverchokEventsTypes.undefined
  | BlenderEventsTypes.monad_tree_update => SverchokEventsTypes.undefined
  | BlenderEventsTypes.node_update => SverchokEventsTypes.undefined
  | BlenderEventsTypes.add_node => SverchokEventsTypes.add_node
  | BlenderEventsTypes.copy_node => SverchokEventsTypes.copy_node
  | BlenderEventsTypes.free_node => SverchokEventsTypes.free_node
  | BlenderEventsTypes.add_link_to_node => SverchokEventsTypes.node_link_update
  | BlenderEventsTypes.node_property_update => SverchokEventsTypes.node_property_update
  | BlenderEventsTypes.undo => SverchokEventsTypes.undo
  | BlenderEventsTypes.frame_change => SverchokEventsTypes.frame_change
  end.

(** [IS_WAVE_END]: a dict with five keys, read with [.get(key, False)]. *)
Definition IS_WAVE_END : list (BlenderEventsTypes.t * bool) :=
  [ (BlenderEventsTypes.tree_update, true);
    (BlenderEventsTypes.node_property_update, true);
    (BlenderEventsTypes.monad_tree_update, true);
    (BlenderEventsTypes.undo, true);
    (BlenderEventsTypes.frame_change, true) ].

Fixpoint dict_get {V} (d : list (BlenderEventsTypes.t * V))
         (key : BlenderEventsTypes.t) (default : V) : V :=
  match d with
  | [] => default
  | (k, v) :: rest => if BlenderEventsTypes.eqb k key then v else dict_get rest key default
  end.

(** ** Host objects, as far as the module reads them *)

Record Node : Type := mkNode {
  node_id : string;
  node_name : string;          (* [node.name] *)
}.

Record NodeSocket : Type := mkSocket {
  socket_id : string;
}.

Record NodeLink : Type := mkLink {
  from_socket : NodeSocket;
  to_socket : NodeSocket;
  from_node : Node;
  to_node : Node;
}.

Record NodeTree : Type := mkTree {
  tree_id : string;
  bl_idname : string;
  tree_nodes : list Node;      (* [tree.nodes] *)
  tree_links : list NodeLink;  (* [tree.links] *)
}.

#[global] Instance Node_eq_dec : EqDecision Node.
Proof. solve_decision. Defined.
#[global] Instance NodeSocket_eq_dec : EqDecision NodeSocket.
Proof. solve_decision. Defined.
#[global] Instance NodeLink_eq_dec : EqDecision NodeLink.
Proof. solve_decision. Defined.
#[global] Instance NodeTree_eq_dec : EqDecision NodeTree.
Proof. solve_decision. Defined.

(** A callable is known by its name; what calling it does is given by the
    host (see [call_body] below).  Arguments are kept as opaque values. *)
Definition Callable : Type := string.

Inductive PyValue : Type :=
| PyNode (n : Node)
| PyContext
| PyStr (s : string).

(** ** The two event records

    [tree], [node] and [link] refer to objects of the host.  The module
    reads the nodes and links of a tree only while it dispatches a wave, so
    a record stands for the object as the dispatch finds it. *)

Record SverchokEvent : Type := mkSverchokEvent {
  sv_type : SverchokEventsTypes.t;
  sv_tree : option NodeTree;
  sv_node : option Node;
  sv_link : option NodeLink;
  sv_update_function : option Callable;
  sv_function_arguments : list PyValue;
}.

Record BlenderEvent : Type := mkBlenderEvent {
  type : BlenderEventsTypes.t;
  tree : option NodeTree;
  node : option Node;
  link : option NodeLink;
  update_function : option Callable;
  function_arguments : list PyValue;
}.

(** [BlenderEvent.is_wave_end] *)
Definition is_wave_end (self : BlenderEvent) : bool :=
  dict_get IS_WAVE_END (type self) false.

(** [BlenderEvent.convert_to_sverchok_event] *)
Definition convert_to_sverchok_event (self : BlenderEvent) : SverchokEvent :=
  let sverchok_event_type := EVENT_CONVERSION (type self) in
  {| sv_type := sverchok_event_type;
     sv_tree := tree self;
     sv_node := node self;
     sv_link := link self;
     sv_update_function := update_function self;
     sv_function_arguments := function_arguments self |}.

(** ** The reconstruction of a node tree *)

(** An [SvLink] is an immutable tuple that refers to its two [SvNode]s; the
    reference is kept as the key under which the node sits in the node
    collection of the tree. *)
Record SvLink : Type := mkSvLink {
  sl_id : string;              (* from_socket.id + to_socket.id *)
  sl_from_node : string;
  sl_to_node : string;
}.

Record SvNode : Type := mkSvNode {
  sn_id : string;
  sn_name : string;
  inputs : gmap string SvLink;
  outputs : gmap string SvLink;
}.

Record SvTree : Type := mkSvTree {
  tree_key : string;            (* [SvTree.id] *)
  nodes : gmap string SvNode;   (* [NodesCollection._nodes] *)
  links : gmap string SvLink;   (* [LinksCollection._links] *)
}.

(** [SvNode.__init__] and [SvTree.__init__] *)
Definition SvNode_init (node_id name : string) : SvNode :=
  {| sn_id := node_id; sn_name := name; inputs := ∅; outputs := ∅ |}.

Definition SvTree_init (tree_id : string) : SvTree :=
  {| tree_key := tree_id; nodes := ∅; links := ∅ |}.

Definition set_nodes (t : SvTree) (ns : gmap string SvNode) : SvTree :=
  {| tree_key := tree_key t; nodes := ns; links := links t |}.
Definition set_links (t : SvTree) (ls : gmap string SvLink) : SvTree :=
  {| tree_key := tree_key t; nodes := nodes t; links := ls |}.
Definition set_outputs (n : SvNode) (o : gmap string SvLink) : SvNode :=
  {| sn_id := sn_id n; sn_name := sn_name n; inputs := inputs n; outputs := o |}.
Definition set_inputs (n : SvNode) (i : gmap string SvLink) : SvNode :=
  {| sn_id := sn_id n; sn_name := sn_name n; inputs := i; outputs := outputs n |}.

(** ** The wave object and the world *)

Record EventsWave : Type := mkEventsWave {
  events_wave : list BlenderEvent;
  links_was_added : bool;
  links_was_removed : bool;
  reroutes_was_added : bool;
  reroutes_was_removed : bool;
}.

(** [EventsWave.__init__] *)
Definition EventsWave_init : EventsWave :=
  {| events_wave := [];
     links_was_added := false;
     links_was_removed := false;
     reroutes_was_added := false;
     reroutes_was_removed := false |}.

(** What the module asks of its collaborators, in the order it asks. *)
Inductive Call : Type :=
| Redraw (f : Callable) (args : list PyValue)      (* the call of an update function *)
| Process (ns : list (option Node)).               (* [process_from_nodes(ns)] *)

#[global] Instance PyValue_eq_dec : EqDecision PyValue.
Proof. solve_decision. Defined.
#[global] Instance Call_eq_dec : EqDecision Call.
Proof. solve_decision. Defined.

Inductive Line : Type :=
| PrintBlender (ev : BlenderEvent)
| PrintSverchok (ev : SverchokEvent)
| PrintText (s : string).

Record World : Type := mkWorld {
  current_wave : EventsWave;              (* [CurrentEvents.events_wave] *)
  _to_listen_new_events : bool;           (* [CurrentEvents._to_listen_new_events] *)
  node_trees : gmap string SvTree;        (* the [SvTree] objects, by reference *)
  node_groups : list NodeTree;            (* [bpy.data.node_groups] *)
  debug_mode : bool;                      (* log_level == "DEBUG" and log_update_events *)
  calls : list Call;                      (* oldest first *)
  printed : list Line;                    (* oldest first *)
}.

Definition set_current_wave (wv : EventsWave) (w : World) : World :=
  {| current_wave := wv;
     _to_listen_new_events := _to_listen_new_events w;
     node_trees := node_trees w; node_groups := node_groups w;
     debug_mode := debug_mode w; calls := calls w; printed := printed w |}.
Definition set_to_listen (b : bool) (w : World) : World :=
  {| current_wave := current_wave w;
     _to_listen_new_events := b;
     node_trees := node_trees w; node_groups := node_groups w;
     debug_mode := debug_mode w; calls := calls w; printed := printed w |}.
Definition set_node_trees (m : gmap string SvTree) (w : World) : World :=
  {| current_wave := current_wave w;
     _to_listen_new_events := _to_listen_new_events w;
     node_trees := m; node_groups := node_groups w;
     debug_mode := debug_mode w; calls := calls w; printed := printed w |}.
Definition add_call (c : Call) (w : World) : World :=
  {| current_wave := current_wave w;
     _to_listen_new_events := _to_listen_new_events w;
     node_trees := node_trees w; node_groups := node_groups w;
     debug_mode := debug_mode w; calls := calls w ++ [c]; printed := printed w |}.
Definition add_line (l : Line) (w : World) : World :=
  {| current_wave := current_wave w;
     _to_listen_new_events := _to_listen_new_events w;
     node_trees := node_trees w; node_groups := node_groups w;
     debug_mode := debug_mode w; calls := calls w; printed := printed w ++ [l] |}.

(** ** State with exceptions

    A computation returns a value or raises, and in both cases hands back
    the world as it left it. *)

Definition M (A : Type) : Type := World -> Result A * World.

Definition ret {A} (a : A) : M A := fun w => (Ok a, w).
Definition raise {A} (e : Exn) : M A := fun w => (Raised e, w).
Definition bind {A B} (c : M A) (k : A -> M B) : M B :=
  fun w => match c w with
           | (Ok a, w') => k a w'
           | (Raised e, w') => (Raised e, w')
           end.
Definition gets {A} (f : World -> A) : M A := fun w => (Ok (f w), w).
Definition modify (f : World -> World) : M unit := fun w => (Ok tt, f w).
Definition lift_result {A} (r : Result A) : M A := fun w => (r, w).

Declare Scope m_scope.
Delimit Scope m_scope with M.
Notation "x <- c ;; k" := (bind c (fun x => k))
  (at level 100, c at next level, right associativity) : m_scope.
Notation "c ;; k" := (bind c (fun _ => k))
  (at level 100, right associativity) : m_scope.
Open Scope m_scope.

(** Python's [for x in xs: body(x)] *)
Fixpoint for_each {A} (body : A -> M unit) (xs : list A) : M unit :=
  match xs with
  | [] => ret tt
  | x :: rest => body x ;; for_each body rest
  end.

(** ** [EventsWave] methods that need no world *)

(** [self.events_wave[-1]] and [self.events_wave[0]] *)
Definition index_last {A} (l : list A) : Result A :=
  match last l with Some x => Ok x | None => Raised IndexError end.
Definition index_first {A} (l : list A) : Result A :=
  match l with x :: _ => Ok x | [] => Raised IndexError end.

(** [EventsWave.add_event] *)
Definition add_event (self : EventsWave) (bl_event : BlenderEvent) : EventsWave :=
  if BlenderEventsTypes.eqb (type bl_event) BlenderEventsTypes.node_update
  then self   (* such updates are not informative *)
  else {| events_wave := events_wave self ++ [bl_event];
          links_was_added := links_was_added self;
          links_was_removed := links_was_removed self;
          reroutes_was_added := reroutes_was_added self;
          reroutes_was_removed := reroutes_was_removed self |}.

(** [EventsWave.is_end]: [self.events_wave and self.events_wave[-1].is_wave_end].
    The left operand is the list itself; [and] evaluates the right operand
    only when the list is non-empty.  The value is read for its truth. *)
Definition is_end (self : EventsWave) : Result bool :=
  match events_wave self with
  | [] => Ok false
  | _ :: _ =>
      match index_last (events_wave self) with
      | Ok ev => Ok (is_wave_end ev)
      | Raised e => Raised e
      end
  end.

(** ** [SvTree] and its two collections

    [self] is a reference to an [SvTree] object: the key of the object in
    [node_trees].  A method reads the object, works on it and writes it back,
    so that what was done before an exception stays done. *)

Definition get_tree (self : string) : M SvTree :=
  fun w => match node_trees w !! self with
           | Some t => (Ok t, w)
           | None => (Raised (AttributeError "NoneType"), w)
           end.

Definition put_tree (self : string) (t : SvTree) : M unit :=
  modify (fun w => set_node_trees (<[self := t]> (node_trees w)) w).

(** [NodesCollection.add] *)
Definition NodesCollection_add (self : string) (node : Node) : M unit :=
  t <- get_tree self ;;
  let sv_node := SvNode_init (node_id node) (node_name node) in
  put_tree self (set_nodes t (<[node_id node := sv_node]> (nodes t))).

(** [NodesCollection.__getitem__] *)
Definition NodesCollection_getitem (t : SvTree) (item : string) : M SvNode :=
  match nodes t !! item with
  | Some n => ret n
  | None => raise (KeyError item)
  end.

Definition link_identity (link : NodeLink) : string :=
  String.append (socket_id (from_socket link)) (socket_id (to_socket link)).

(** [LinksCollection.add] *)
Definition LinksCollection_add (self : string) (link : NodeLink) : M unit :=
  t <- get_tree self ;;
  let link_id := link_identity link in
  from_n <- NodesCollection_getitem t (node_id (from_node link)) ;;
  to_n <- NodesCollection_getitem t (node_id (to_node link)) ;;
  let sv_link := mkSvLink link_id (node_id (from_node link)) (node_id (to_node link)) in
  let ns1 := alter (fun n => set_outputs n (<[link_id := sv_link]> (outputs n)))
                   (node_id (from_node link)) (nodes t) in
  let ns2 := alter (fun n => set_inputs n (<[link_id := sv_link]> (inputs n)))
                   (node_id (to_node link)) ns1 in
  put_tree self (set_links (set_nodes t ns2) (<[link_id := sv_link]> (links t))).

(** [SvTree.get_blender_tree] *)
Fixpoint search_node_groups (ngs : list NodeTree) (self_id : string) : option NodeTree :=
  match ngs with
  | [] => None
  | ng :: rest =>
      if String.eqb (bl_idname ng) "SverchCustomTreeType"
      then if String.eqb (tree_id ng) self_id then Some ng
           else search_node_groups rest self_id
      else search_node_groups rest self_id
  end.

Definition get_blender_tree (self : string) : M NodeTree :=
  t <- get_tree self ;;
  ngs <- gets node_groups ;;
  match search_node_groups ngs (tree_key t) with
  | Some ng => ret ng
  | None => raise (LookupError
      "Looks like some node tree has disappeared, or its ID has changed")
  end.

(** [SvTree.total_reconstruction] *)
Definition total_reconstruction (self : string) : M unit :=
  bl_tree <- get_blender_tree self ;;
  for_each (NodesCollection_add self) (tree_nodes bl_tree) ;;
  for_each (LinksCollection_add self) (tree_links bl_tree).

(** [SvTree.need_total_reconstruction]: [bool(len(self.nodes))] *)
Definition need_total_reconstruction (self : string) : M bool :=
  t <- get_tree self ;;
  ret (negb (Nat.eqb (size (nodes t)) 0)).

(** [SvTree.is_in_debug_mode] and [CurrentEvents.is_in_debug_mode] *)
Definition is_in_debug_mode : M bool := gets debug_mode.

(** [SvTree.check_reconstruction_correctness] *)
Definition check_reconstruction_correctness (self : string) : M unit :=
  bl_tree <- get_blender_tree self ;;
  let bl_links : gset string := list_to_set (map link_identity (tree_links bl_tree)) in
  let bl_nodes : gset string := list_to_set (map node_id (tree_nodes bl_tree)) in
  t <- get_tree self ;;
  if bool_decide (bl_links = dom (links t)) && bool_decide (bl_nodes = dom (nodes t))
  then modify (add_line (PrintText "Reconstruction is correct"))
  else modify (add_line (PrintText "!!! Reconstruction does not correct !!!")).

(** [SvTree.update_reconstruction]; the argument is not read. *)
Definition update_reconstruction (self : string)
           (sv_event : option (list SverchokEvent)) : M unit :=
  need <- need_total_reconstruction self ;;
  (if need then total_reconstruction self else ret tt) ;;
  dbg <- is_in_debug_mode ;;
  if dbg then check_reconstruction_correctness self else ret tt.

(** ** Classification and dispatch *)

(** A host callable is known by what it does to this module: it may call
    [CurrentEvents.add_new_event] again, and it may raise. *)
Inductive Action : Type :=
| Ingest (ev : BlenderEvent)
| Raise (e : Exn).

(** A computation on the [SvTree] objects alone. *)
Definition StoreM (A : Type) : Type :=
  gmap string SvTree -> Result A * gmap string SvTree.

Definition lift_store {A} (c : StoreM A) : M A :=
  fun w => let (r, m') := c (node_trees w) in (r, set_node_trees m' w).

(** Attribute access on a value that may be [None]. *)
Definition attr {A} (o : option A) (name : string) : M A :=
  match o with
  | Some a => ret a
  | None => raise (AttributeError name)
  end.

(** What the module calls without saying what it does: the two methods
    whose bodies the source leaves out ([...]), and the host's callables,
    that is the update functions of nodes and [process_from_nodes]. *)
Class Collaborators : Type := {
  get_node_tree_reconstruction : option NodeTree -> StoreM (option string);
  convert_known_events : EventsWave -> StoreM (option (list SverchokEvent));
  call_body : Callable -> list PyValue -> list Action;
  process_from_nodes : list (option Node) -> list Action;
}.

Section Dispatch.

Context {C : Collaborators}.

(** [EventsWave.previous_tree] and [EventsWave.current_tree] *)
Definition previous_tree (self : EventsWave) : M (option string) :=
  ev0 <- lift_result (index_first (events_wave self)) ;;
  lift_store (get_node_tree_reconstruction (tree ev0)).

Definition current_tree (self : EventsWave) : M (option NodeTree) :=
  ev0 <- lift_result (index_first (events_wave self)) ;;
  ret (tree ev0).

(** [len(self.current_tree.links) - len(self.previous_tree.links)] *)
Definition links_difference (self : EventsWave) : M Z :=
  ct <- current_tree self ;;
  bl_tree <- attr ct "links" ;;
  pt <- previous_tree self ;;
  ref <- attr pt "links" ;;
  t <- get_tree ref ;;
  ret (Z.of_nat (length (tree_links bl_tree)) - Z.of_nat (size (links t)))%Z.

(** [len(self.current_tree.nodes) - len(self.previous_tree.nodes)] *)
Definition nodes_difference (self : EventsWave) : M Z :=
  ct <- current_tree self ;;
  bl_tree <- attr ct "nodes" ;;
  pt <- previous_tree self ;;
  ref <- attr pt "nodes" ;;
  t <- get_tree ref ;;
  ret (Z.of_nat (length (tree_nodes bl_tree)) - Z.of_nat (size (nodes t)))%Z.

(** [EventsWave.analyze_changes]: the four flags are local names of the
    method, nothing is stored on the wave. *)
Definition analyze_changes (self : EventsWave) : M unit :=
  ev0 <- lift_result (index_first (events_wave self)) ;;
  if BlenderEventsTypes.eqb (type ev0) BlenderEventsTypes.tree_update
     || BlenderEventsTypes.eqb (type ev0) BlenderEventsTypes.monad_tree_update
  then
    d1 <- links_difference self ;;
    let links_was_added := (0 <? d1)%Z in
    d2 <- links_difference self ;;
    let links_was_removed := (d2 <? 0)%Z in
    d3 <- nodes_difference self ;;
    let reroutes_was_added := (0 <? d3)%Z in
    d4 <- nodes_difference self ;;
    let reroutes_was_removed := (d4 <? 0)%Z in
    ret tt
  else if BlenderEventsTypes.eqb (type ev0) BlenderEventsTypes.add_node then ret tt
  else if BlenderEventsTypes.eqb (type ev0) BlenderEventsTypes.copy_node then ret tt
  else if BlenderEventsTypes.eqb (type ev0) BlenderEventsTypes.free_node then ret tt
  else if BlenderEventsTypes.eqb (type ev0) BlenderEventsTypes.add_link_to_node then ret tt
  else ret tt.

(** [EventsWave.convert_to_sverchok_events] *)
Definition convert_to_sverchok_events (self : EventsWave)
  : M (option (list SverchokEvent)) :=
  ended <- lift_result (is_end self) ;;
  if negb ended
  then raise (RuntimeError "You should waite wave end before calling this method")
  else
    last_ev <- lift_result (index_last (events_wave self)) ;;
    let tree_was_changed :=
      BlenderEventsTypes.eqb (type last_ev) BlenderEventsTypes.tree_update
      || BlenderEventsTypes.eqb (type last_ev) BlenderEventsTypes.monad_tree_update in
    if tree_was_changed
    then
      analyze_changes self ;;
      known_sv_events <- lift_store (convert_known_events self) ;;
      ret known_sv_events
    else
      ret (Some (map convert_to_sverchok_event (events_wave self))).

(** Running a host callable: [ingest] is [CurrentEvents.add_new_event]. *)
Definition run_action (ingest : BlenderEvent -> M unit) (a : Action) : M unit :=
  match a with
  | Ingest ev => ingest ev
  | Raise e => raise e
  end.

(** [SverchokEvent.redraw_node] *)
Definition redraw_node (ingest : BlenderEvent -> M unit) (self : SverchokEvent) : M unit :=
  match sv_update_function self with
  | Some f =>
      modify (add_call (Redraw f (sv_function_arguments self))) ;;
      for_each (run_action ingest) (call_body f (sv_function_arguments self))
  | None => ret tt
  end.

(** Iterating over a value that may be [None]. *)
Definition iter {A} (o : option (list A)) : M (list A) :=
  match o with
  | Some l => ret l
  | None => raise (TypeError "'NoneType' object is not iterable")
  end.

(** [CurrentEvents.redraw_nodes] *)
Definition redraw_nodes (ingest : BlenderEvent -> M unit)
           (sverchok_events : option (list SverchokEvent)) : M unit :=
  evs <- iter sverchok_events ;;
  for_each (fun sv_event =>
              dbg <- is_in_debug_mode ;;
              (if dbg then modify (add_line (PrintSverchok sv_event)) else ret tt) ;;
              redraw_node ingest sv_event) evs.

(** The argument list of [process_from_nodes] built in [update_nodes]. *)
Definition nodes_to_process (evs : list SverchokEvent) : list (option Node) :=
  map sv_node
      (List.filter
         (fun ev => negb (SverchokEventsTypes.eqb (sv_type ev) SverchokEventsTypes.free_node))
         evs).

(** [CurrentEvents.update_nodes] *)
Definition update_nodes (ingest : BlenderEvent -> M unit)
           (sverchok_events : option (list SverchokEvent)) : M unit :=
  evs <- iter sverchok_events ;;
  let ns := nodes_to_process evs in
  modify (add_call (Process ns)) ;;
  for_each (run_action ingest) (process_from_nodes ns).

(** [CurrentEvents.tree_reconstruction] *)
Definition tree_reconstruction : M (option string) :=
  wv <- gets current_wave ;;
  previous_tree wv.

(** [CurrentEvents.handle_new_event] *)
Definition handle_new_event (ingest : BlenderEvent -> M unit) : M unit :=
  wv <- gets current_wave ;;
  ended <- lift_result (is_end wv) ;;
  if negb ended then ret tt
  else
    modify (set_to_listen false) ;;
    wv <- gets current_wave ;;
    sv_events <- convert_to_sverchok_events wv ;;
    tr <- tree_reconstruction ;;
    self <- attr tr "update_reconstruction" ;;
    update_reconstruction self sv_events ;;
    redraw_nodes ingest sv_events ;;
    update_nodes ingest sv_events ;;
    modify (set_to_listen true) ;;
    modify (set_current_wave EventsWave_init).

(** [CurrentEvents.add_new_event].  [depth] is the number of further
    nested calls the interpreter's stack allows. *)
Fixpoint add_new_event (depth : nat) (bl_event : BlenderEvent) : M unit :=
  listen <- gets _to_listen_new_events ;;
  if negb listen then ret tt
  else
    dbg <- is_in_debug_mode ;;
    (if dbg then modify (add_line (PrintBlender bl_event)) else ret tt) ;;
    modify (fun w => set_current_wave (add_event (current_wave w) bl_event) w) ;;
    handle_new_event
      match depth with
      | O => fun _ => raise RecursionError
      | S d => add_new_event d
      end.

(** Ingesting a list of events one after the other, stopping at the
    first exception. *)
Definition ingest_all (depth : nat) (evs : list BlenderEvent) : M unit :=
  for_each (add_new_event depth) evs.

End Dispatch.

(** * Terms of the statements *)

(** The five kinds whose arrival ends a wave. *)
Definition terminator (k : BlenderEventsTypes.t) : bool :=
  match k with
  | BlenderEventsTypes.tree_update
  | BlenderEventsTypes.monad_tree_update
  | BlenderEventsTypes.undo
  | BlenderEventsTypes.frame_change
  | BlenderEventsTypes.node_property_update => true
  | _ => false
  end.

(** The part of the world that classification and reconciliation leave
    alone: the wave, the flag, the calls made and the host's data. *)
Definition same_control (w w' : World) : Prop :=
  current_wave w' = current_wave w
  /\ _to_listen_new_events w' = _to_listen_new_events w
  /\ calls w' = calls w
  /\ node_groups w' = node_groups w
  /\ debug_mode w' = debug_mode w.

Definition keeps_control {A} (c : M A) : Prop :=
  forall w r w', c w = (r, w') -> same_control w w'.

(** The calls a list of Sverchok events asks for when it is redrawn. *)
Definition redraw_call (ev : SverchokEvent) : list Call :=
  match sv_update_function ev with
  | Some f => [Redraw f (sv_function_arguments ev)]
  | None => []
  end.

Definition redraw_calls (evs : list SverchokEvent) : list Call :=
  flat_map redraw_call evs.

(** The world apart from the two logs. *)
Definition same_state (w w' : World) : Prop :=
  current_wave w' = current_wave w
  /\ _to_listen_new_events w' = _to_listen_new_events w
  /\ node_trees w' = node_trees w
  /\ node_groups w' = node_groups w
  /\ debug_mode w' = debug_mode w.

(** An ingest function is inert if, while the flag is down, it leaves the
    world as it is; it is silent if it moreover returns normally. *)
Definition inert (ingest : BlenderEvent -> M unit) : Prop :=
  forall ev w, _to_listen_new_events w = false -> snd (ingest ev w) = w.

Definition silent (ingest : BlenderEvent -> M unit) : Prop :=
  forall ev w, _to_listen_new_events w = false -> ingest ev w = (Ok tt, w).

(** The first exception a callable's body raises, if any. *)
Fixpoint first_raise (acts : list Action) : option Exn :=
  match acts with
  | [] => None
  | Ingest _ :: rest => first_raise rest
  | Raise e :: _ => Some e
  end.

(** The world after the event was printed and put on the wave. *)
Definition arrive (bl_event : BlenderEvent) (w : World) : World :=
  set_current_wave
    (add_event (current_wave w) bl_event)
    (if debug_mode w then add_line (PrintBlender bl_event) w else w).

(** A scheduler that listens holds a wave that has not ended.  It is so
    at the start and stays so under [add_new_event]. *)
Definition consistent (w : World) : Prop :=
  _to_listen_new_events w = true -> is_end (current_wave w) = Ok false.

Definition is_process (c : Call) : bool :=
  match c with Process _ => true | Redraw _ _ => false end.

(** How often [process_from_nodes] was called. *)
Definition processes (cs : list Call) : nat := length (List.filter is_process cs).



Section DispatchTerms.

Context {C : Collaborators}.

(** The body of the loop of [redraw_nodes]. *)
Definition redraw_step ingest (sv_event : SverchokEvent) : M unit :=
  dbg <- is_in_debug_mode ;;
  (if dbg then modify (add_line (PrintSverchok sv_event)) else ret tt) ;;
  redraw_node ingest sv_event.

(** The ingest function that a host callable reaches at a given depth. *)
Definition nested (depth : nat) : BlenderEvent -> M unit :=
  match depth with
  | O => fun _ => raise RecursionError
  | S d => add_new_event d
  end.

End DispatchTerms.



(** The live graph is well formed when its links join nodes of the graph. *)
Definition links_join_nodes (bl_tree : NodeTree) : Prop :=
  Forall (fun l => node_id (from_node l) ∈ map node_id (tree_nodes bl_tree)
                   /\ node_id (to_node l) ∈ map node_id (tree_nodes bl_tree))
         (tree_links bl_tree).

(** The two methods with the bodies they have in the source: [...] is an
    expression statement, the call returns [None]. *)
Definition elided_lookup : option NodeTree -> StoreM (option string) :=
  fun _ m => (Ok None, m).

Definition elided_known_events : EventsWave -> StoreM (option (list SverchokEvent)) :=
  fun _ m => (Ok None, m).

(** The module with the two methods as the source has them. *)
Definition as_written (callables : Callable -> list PyValue -> list Action)
           (engine : list (option Node) -> list Action) : Collaborators :=
  {| get_node_tree_reconstruction := elided_lookup;
     convert_known_events := elided_known_events;
     call_body := callables;
     process_from_nodes := engine |}.

(** * Concrete inputs *)

Module Example.

Definition box : Node := mkNode "n1" "Box".
Definition line : Node := mkNode "n2" "Line".
Definition wire : NodeLink := mkLink (mkSocket "n1.out") (mkSocket "n2.in") box line.

Definition G : NodeTree := mkTree "G" "SverchCustomTreeType" [box; line] [wire].

(** Three update functions: one returns, one raises, one calls
  [CurrentEvents.add_new_event] from inside the dispatch. *)
Definition reentrant_event : BlenderEvent :=
mkBlenderEvent BlenderEventsTypes.add_node (Some G) (Some line) None None [].

Definition callables (f : Callable) (args : list PyValue) : list Action :=
if String.eqb f "raising" then [Raise (HostError "raising")]
else if String.eqb f "reentrant" then [Ingest reentrant_event]
else [].

Definition engine (ns : list (option Node)) : list Action := [].

Definition written : Collaborators := as_written callables engine.

Definition property_event (f : Callable) : BlenderEvent :=
mkBlenderEvent BlenderEventsTypes.node_property_update (Some G) (Some box) None
               (Some f) [PyNode box; PyContext].

Definition undo_event : BlenderEvent :=
mkBlenderEvent BlenderEventsTypes.undo (Some G) None None None [].

Definition node_update_event : BlenderEvent :=
mkBlenderEvent BlenderEventsTypes.node_update (Some G) (Some box) None None [].

Definition add_node_event : BlenderEvent :=
mkBlenderEvent BlenderEventsTypes.add_node (Some G) (Some box) None None [].

Definition add_link_event : BlenderEvent :=
mkBlenderEvent BlenderEventsTypes.add_link_to_node (Some G) (Some line) (Some wire)
               None [].

(** What adding and linking a node sends before the tree is updated. *)
Definition burst : list BlenderEvent :=
[add_node_event; node_update_event; add_link_event].

Definition tree_update_event : BlenderEvent :=
mkBlenderEvent BlenderEventsTypes.tree_update (Some G) None None None [].

(** The module as it is when it is imported. *)
Definition start : World :=
mkWorld EventsWave_init true ∅ [G] false [] [].

(** The same with a shadow of [G] in place: an empty one, and one that
  holds a node that the live graph no longer has. *)
Definition old_node : SvNode := SvNode_init "n0" "Old".

Definition stale_shadow : SvTree :=
{| tree_key := "G"; nodes := {["n0" := old_node]}; links := ∅ |}.

Definition with_empty_shadow : World :=
mkWorld EventsWave_init true {["G" := SvTree_init "G"]} [G] false [] [].

Definition with_stale_shadow : World :=
mkWorld EventsWave_init true {["G" := stale_shadow]} [G] false [] [].


End Example.

(** * The rest of the module *)

(** ** The collections as containers *)

(** [NodesCollection.__len__] and [LinksCollection.__len__] *)
Definition NodesCollection_len (t : SvTree) : nat := size (nodes t).
Definition LinksCollection_len (t : SvTree) : nat := size (links t).

(** [NodesCollection.__setitem__] *)
Definition NodesCollection_setitem (self : string) (key : string) (value : SvNode)
  : M unit :=
  t <- get_tree self ;;
  put_tree self (set_nodes t (<[key := value]> (nodes t))).

(** [NodesCollection.__eq__] and [LinksCollection.__eq__]: the keys are
    compared with the other operand, a set of identifiers. *)
Definition NodesCollection_eq (t : SvTree) (other : gset string) : bool :=
  bool_decide (dom (nodes t) = other).
Definition LinksCollection_eq (t : SvTree) (other : gset string) : bool :=
  bool_decide (dom (links t) = other).

(** ** [property_update] *)

(** The function that [property_update] returns, with the two attributes
    it is given. *)
Record UpdateHandler : Type := mkHandler {
  prop_name : string;
  call_function : option Callable;
}.

Definition property_update (prop_name : string) (call_function : option Callable)
  : UpdateHandler :=
  {| prop_name := prop_name; call_function := call_function |}.

(** The node whose property changes, with [node.id_data], its tree. *)
Record PropertyOwner : Type := mkOwner {
  owner : Node;
  id_data : NodeTree;
}.

Section UpdateCall.

Context {C : Collaborators}.

(** [handel_update_call], called by the host as [(node, context)]. *)
Definition handel_update_call (self : UpdateHandler) (depth : nat)
           (node : PropertyOwner) : M unit :=
  let bl_event :=
    {| type := BlenderEventsTypes.node_property_update;
       tree := Some (id_data node);
       node := Some (owner node);
       link := None;
       update_function := call_function self;
       function_arguments := [PyNode (owner node); PyContext] |} in
  add_new_event depth bl_event.

End UpdateCall.

(** ** Identifiers of reroutes and of sockets *)

(** A reroute node with its [n_id] property; [hash(self)] is the same at
    every call, [hash(time.monotonic())] is whatever the clock gives. *)
Record NodeReroute : Type := mkReroute {
  n_id : string;
  hash_self : Z;
}.

(** [node_id]: [str] of an integer is its decimal writing. *)
Definition reroute_node_id (self : NodeReroute) (hash_monotonic : Z)
  : string * NodeReroute :=
  if String.eqb (n_id self) ""
  then
    let fresh := pretty (Z.lxor (hash_self self) hash_monotonic) in
    (fresh, {| n_id := fresh; hash_self := hash_self self |})
  else (n_id self, self).

Record NodeSocketColor : Type := mkSocketColor {
  socket_node : NodeReroute;     (* [self.node] *)
  identifier : string;
}.

(** [socket_id]; [hash_str] is [hash] on strings. *)
Definition color_socket_id (hash_str : string -> Z) (self : NodeSocketColor)
           (hash_monotonic : Z) : string * NodeSocketColor :=
  let (nid, n') := reroute_node_id (socket_node self) hash_monotonic in
  (pretty (hash_str (String.append nid (identifier self))),
   {| socket_node := n'; identifier := identifier self |}).

(** ** Terms of the further statements *)

(** Every link of the tree is known to both its ends. *)
Definition wired (t : SvTree) : Prop :=
  forall lid sl,
    links t !! lid = Some sl ->
    (exists fn, nodes t !! sl_from_node sl = Some fn /\ outputs fn !! lid = Some sl)
    /\ (exists tn, nodes t !! sl_to_node sl = Some tn /\ inputs tn !! lid = Some sl).

(** No tree object holds a node. *)
Definition no_nodes (m : gmap string SvTree) : Prop :=
  forall key t, m !! key = Some t -> nodes t = ∅.

(** A method on the tree objects that keeps them without nodes. *)
Definition keeps_no_nodes {A} (c : StoreM A) : Prop :=
  forall m r m', no_nodes m -> c m = (r, m') -> no_nodes m'.

(** A computation that prints nothing. *)
Definition keeps_output {A} (c : M A) : Prop :=
  forall w r w', c w = (r, w') -> printed w' = printed w.

(** A computation that prints nothing while debug mode is off, and
    leaves it off. *)
Definition quiet {A} (c : M A) : Prop :=
  forall w r w',
    debug_mode w = false -> c w = (r, w') ->
    printed w' = printed w /\ debug_mode w' = false.

(** A computation that keeps a property of the tree objects. *)
Definition keeps_store (P : gmap string SvTree -> Prop) {A} (c : M A) : Prop :=
  forall w r w', P (node_trees w) -> c w = (r, w') -> P (node_trees w').

(** The calls that one dispatch can add: redraws, then at most one
    recomputation. *)
Definition dispatch_calls (cs : list Call) : Prop :=
  exists rs ps,
    cs = rs ++ ps
    /\ Forall (fun c => is_process c = false) rs
    /\ (ps = [] \/ exists ns, ps = [Process ns]).

(** ** Further inputs *)

Module Further.

(** A shadow of [Example.G] that holds its two nodes and no link. *)
Definition with_both_nodes : SvTree :=
{| tree_key := "G";
   nodes := {["n1" := SvNode_init "n1" "Box"; "n2" := SvNode_init "n2" "Line"]};
   links := ∅ |}.

Definition before_linking : World :=
mkWorld EventsWave_init true {["G" := with_both_nodes]} [Example.G] false [] [].

(** The stale shadow with debug mode on, and with a host that has lost
  the graph. *)
Definition debugging : World :=
mkWorld EventsWave_init true {["G" := Example.stale_shadow]} [Example.G] true [] [].

Definition orphaned : World :=
mkWorld EventsWave_init true {["G" := Example.stale_shadow]} [] false [] [].

(** The node [Example.box] as the host hands it to an update handler. *)
Definition box_in_G : PropertyOwner := mkOwner Example.box Example.G.

End Further.

(** * Properties *)

(** ** The end of a wave *)

Lemma index_last_snoc {A} (l : list A) (x : A) : index_last (l ++ [x]) = Ok x.
Proof. unfold index_last. by rewrite last_snoc. Qed.

Lemma is_end_snoc l ev a b c d :
  is_end (mkEventsWave (l ++ [ev]) a b c d) = Ok (is_wave_end ev).
Proof.
  unfold is_end; simpl.
  destruct (l ++ [ev]) eqn:E.
  - by destruct l.
  - rewrite <- E, index_last_snoc. done.
Qed.

Lemma is_end_total self : exists b, is_end self = Ok b.
Proof.
  destruct self as [l a b c d].
  destruct l as [|x l] using rev_ind.
  - by exists false.
  - exists (is_wave_end x). apply is_end_snoc.
Qed.

Lemma is_end_nil a b c d : is_end (mkEventsWave [] a b c d) = Ok false.
Proof. done. Qed.

Lemma is_wave_end_terminator ev : is_wave_end ev = terminator (type ev).
Proof. unfold is_wave_end. by destruct (type ev). Qed.

Lemma is_end_add_event (self : EventsWave) (ev : BlenderEvent) :
  is_end (add_event self ev)
  = match type ev with
    | BlenderEventsTypes.tree_update
    | BlenderEventsTypes.monad_tree_update
    | BlenderEventsTypes.undo
    | BlenderEventsTypes.frame_change
    | BlenderEventsTypes.node_property_update => Ok true
    | BlenderEventsTypes.add_node
    | BlenderEventsTypes.copy_node
    | BlenderEventsTypes.free_node
    | BlenderEventsTypes.add_link_to_node => Ok false
    | BlenderEventsTypes.node_update => is_end self
    end.
Proof.
  unfold add_event.
  destruct (type ev) eqn:E; simpl; try reflexivity;
    rewrite is_end_snoc, is_wave_end_terminator, E; reflexivity.
Qed.

(** C7. A wave whose newest event is [ev] is ended exactly when the kind of
    [ev] is one of [tree_update], [monad_tree_update], [undo],
    [frame_change], [node_property_update]; appending an [add_node],
    [copy_node], [free_node] or [add_link_to_node] event gives a wave that is
    not ended, and appending one of the five gives an ended one. *)
Theorem wave_end_is_last_kind :
  forall (self : EventsWave) (l : list BlenderEvent) (ev : BlenderEvent) a b c d,
    is_end (mkEventsWave (l ++ [ev]) a b c d)
    = Ok (bool_decide (type ev ∈ [BlenderEventsTypes.tree_update;
                                  BlenderEventsTypes.monad_tree_update;
                                  BlenderEventsTypes.undo;
                                  BlenderEventsTypes.frame_change;
                                  BlenderEventsTypes.node_property_update]))
    /\ is_end (add_event self ev)
       = match type ev with
         | BlenderEventsTypes.tree_update
         | BlenderEventsTypes.monad_tree_update
         | BlenderEventsTypes.undo
         | BlenderEventsTypes.frame_change
         | BlenderEventsTypes.node_property_update => Ok true
         | BlenderEventsTypes.add_node
         | BlenderEventsTypes.copy_node
         | BlenderEventsTypes.free_node
         | BlenderEventsTypes.add_link_to_node => Ok false
         | BlenderEventsTypes.node_update => is_end self
         end.
Proof.
  intros self l ev a b c d. split.
  - rewrite is_end_snoc, is_wave_end_terminator.
    destruct (type ev); vm_compute; reflexivity.
  - apply is_end_add_event.
Qed.

(** ** Events that are not informative *)

Lemma add_event_node_update self ev :
  type ev = BlenderEventsTypes.node_update -> add_event self ev = self.
Proof. intros E. unfold add_event. by rewrite E. Qed.

Lemma add_event_other self ev :
  type ev <> BlenderEventsTypes.node_update ->
  events_wave (add_event self ev) = events_wave self ++ [ev].
Proof.
  intros E. unfold add_event, BlenderEventsTypes.eqb.
  by rewrite bool_decide_eq_false_2.
Qed.

(** ** Reasoning about computations *)

Lemma bind_inv {A B} (c : M A) (k : A -> M B) w r w' :
  bind c k w = (r, w') ->
  (exists a w1, c w = (Ok a, w1) /\ k a w1 = (r, w'))
  \/ (exists e, c w = (Raised e, w') /\ r = Raised e).
Proof.
  unfold bind. destruct (c w) as [[a|e] w1]; intros H.
  - left. by exists a, w1.
  - right. exists e. by inversion H.
Qed.

Lemma bind_ok {A B} (c : M A) (k : A -> M B) w a w1 :
  c w = (Ok a, w1) -> bind c k w = k a w1.
Proof. unfold bind. by intros ->. Qed.

Lemma bind_raised {A B} (c : M A) (k : A -> M B) w e w1 :
  c w = (Raised e, w1) -> bind c k w = (Raised e, w1).
Proof. unfold bind. by intros ->. Qed.

(** Splits a hypothesis [bind c k w = (r, w')] into its two cases. *)
Tactic Notation "inv_bind" hyp(H) "as" ident(a) ident(w1) ident(H1) ident(H2) :=
  apply bind_inv in H as [(a & w1 & H1 & H2) | (? & H1 & H2)].

(** Reads off the primitive steps. *)
Ltac prim H :=
  unfold iter, attr in H; simpl in H;
  unfold gets, modify, ret, raise, lift_result in H; simplify_eq.

Lemma same_control_refl w : same_control w w.
Proof. by repeat split. Qed.

Lemma same_control_trans w1 w2 w3 :
  same_control w1 w2 -> same_control w2 w3 -> same_control w1 w3.
Proof. unfold same_control. intros (?&?&?&?&?) (?&?&?&?&?). repeat split; congruence. Qed.

Lemma keeps_ret {A} (a : A) : keeps_control (ret a).
Proof. intros w r w' H. prim H. apply same_control_refl. Qed.

Lemma keeps_raise {A} e : keeps_control (@raise A e).
Proof. intros w r w' H. prim H. apply same_control_refl. Qed.

Lemma keeps_gets {A} (f : World -> A) : keeps_control (gets f).
Proof. intros w r w' H. prim H. apply same_control_refl. Qed.

Lemma keeps_lift_result {A} (x : Result A) : keeps_control (lift_result x).
Proof. intros w r w' H. prim H. apply same_control_refl. Qed.

Lemma keeps_bind {A B} (c : M A) (k : A -> M B) :
  keeps_control c -> (forall a, keeps_control (k a)) -> keeps_control (bind c k).
Proof.
  intros Hc Hk w r w' H. inv_bind H as a w1 H1 H2.
  - eapply same_control_trans; [by eapply Hc | by eapply Hk].
  - by eapply Hc.
Qed.

Lemma keeps_for_each {A} (body : A -> M unit) xs :
  (forall x, keeps_control (body x)) -> keeps_control (for_each body xs).
Proof.
  intros Hb. induction xs as [|x xs IH]; simpl.
  - apply keeps_ret.
  - apply keeps_bind; [apply Hb | intros _; apply IH].
Qed.

Lemma keeps_lift_store {A} (c : StoreM A) : keeps_control (lift_store c).
Proof.
  intros w r w' H. unfold lift_store in H.
  destruct (c (node_trees w)) as [r1 m']. simplify_eq. by repeat split.
Qed.

Lemma keeps_set_node_trees f :
  keeps_control (modify (fun w => set_node_trees (f w) w)).
Proof. intros w r w' H. prim H. by repeat split. Qed.

Lemma keeps_add_line l : keeps_control (modify (add_line l)).
Proof. intros w r w' H. prim H. by repeat split. Qed.

Lemma keeps_if {A} (b : bool) (c1 c2 : M A) :
  keeps_control c1 -> keeps_control c2 -> keeps_control (if b then c1 else c2).
Proof. by destruct b. Qed.

Lemma keeps_attr {A} (o : option A) s : keeps_control (attr o s).
Proof. destruct o; [apply keeps_ret | apply keeps_raise]. Qed.

Lemma keeps_get_tree self : keeps_control (get_tree self).
Proof.
  intros w r w' H. unfold get_tree in H.
  destruct (node_trees w !! self); simplify_eq; apply same_control_refl.
Qed.

Lemma keeps_put_tree self t : keeps_control (put_tree self t).
Proof. apply (keeps_set_node_trees (fun w => <[self:=t]> (node_trees w))). Qed.

Create HintDb keeps.
#[local] Hint Resolve keeps_ret keeps_raise keeps_gets keeps_lift_result
  keeps_lift_store keeps_add_line keeps_attr keeps_get_tree keeps_put_tree : keeps.

(** Goes through a computation built from the steps above. *)
Ltac keeps :=
  repeat first
    [ progress eauto with keeps
    | apply keeps_bind; [ | intros ? ]
    | apply keeps_for_each; intros ?
    | apply keeps_if
    | match goal with
      | |- keeps_control (match ?x with _ => _ end) => destruct x
      end ].

Lemma keeps_NodesCollection_add self n : keeps_control (NodesCollection_add self n).
Proof. unfold NodesCollection_add. keeps. Qed.

Lemma keeps_LinksCollection_add self l : keeps_control (LinksCollection_add self l).
Proof. unfold LinksCollection_add, NodesCollection_getitem. keeps. Qed.

Lemma keeps_get_blender_tree self : keeps_control (get_blender_tree self).
Proof. unfold get_blender_tree. keeps. Qed.

#[local] Hint Resolve keeps_NodesCollection_add keeps_LinksCollection_add
  keeps_get_blender_tree : keeps.

Lemma keeps_update_reconstruction self evs :
  keeps_control (update_reconstruction self evs).
Proof.
  unfold update_reconstruction, need_total_reconstruction, total_reconstruction,
    is_in_debug_mode, check_reconstruction_correctness.
  keeps.
Qed.

(** ** Dispatch *)

Lemma same_state_refl w : same_state w w.
Proof. by repeat split. Qed.

Lemma same_state_trans w1 w2 w3 :
  same_state w1 w2 -> same_state w2 w3 -> same_state w1 w3.
Proof. unfold same_state. intros (?&?&?&?&?) (?&?&?&?&?). repeat split; congruence. Qed.

Lemma silent_inert ingest : silent ingest -> inert ingest.
Proof. intros H ev w Hw. by rewrite H. Qed.

Lemma raise_inert e : inert (fun _ => raise e).
Proof. by intros ev w _. Qed.

Section DispatchFacts.

Context {C : Collaborators}.

Lemma keeps_previous_tree self : keeps_control (previous_tree self).
Proof. unfold previous_tree. keeps. Qed.

Lemma keeps_analyze_changes self : keeps_control (analyze_changes self).
Proof.
  unfold analyze_changes, links_difference, nodes_difference, current_tree.
  pose proof keeps_previous_tree. keeps.
Qed.

Lemma keeps_convert_to_sverchok_events self :
  keeps_control (convert_to_sverchok_events self).
Proof.
  unfold convert_to_sverchok_events. pose proof keeps_analyze_changes. keeps.
Qed.

Lemma keeps_tree_reconstruction : keeps_control tree_reconstruction.
Proof. unfold tree_reconstruction. pose proof keeps_previous_tree. keeps. Qed.

(** *** Host callables while the flag is down *)

Lemma run_action_inert ingest a w r w' :
  inert ingest -> _to_listen_new_events w = false ->
  run_action ingest a w = (r, w') -> w' = w.
Proof.
  intros Hi Hw H. destruct a as [ev|e]; simpl in H.
  - specialize (Hi ev w Hw). by rewrite H in Hi.
  - by prim H.
Qed.

Lemma run_actions_inert ingest acts w r w' :
  inert ingest -> _to_listen_new_events w = false ->
  for_each (run_action ingest) acts w = (r, w') -> w' = w.
Proof.
  intros Hi Hw. revert r w'.
  induction acts as [|a acts IH]; simpl; intros r w' H.
  - by prim H.
  - inv_bind H as u w1 H1 H2.
    + apply run_action_inert in H1 as ->; [|done..]. by eapply IH.
    + by apply run_action_inert in H1.
Qed.

Lemma run_actions_silent ingest acts w :
  silent ingest -> _to_listen_new_events w = false ->
  for_each (run_action ingest) acts w
  = (match first_raise acts with Some e => Raised e | None => Ok tt end, w).
Proof.
  intros Hs Hw. induction acts as [|[ev|e] acts IH]; simpl; try done.
  rewrite (bind_ok _ _ _ tt w); [done | by apply Hs].
Qed.

Lemma redraw_node_inert ingest ev w r w' :
  inert ingest -> _to_listen_new_events w = false ->
  redraw_node ingest ev w = (r, w') ->
  same_state w w' /\ (r = Ok tt -> calls w' = calls w ++ redraw_call ev).
Proof.
  intros Hi Hw H. unfold redraw_node, redraw_call in *.
  destruct (sv_update_function ev) as [f|].
  - inv_bind H as u w1 H1 H2; prim H1.
    apply run_actions_inert in H2 as ->; [|done..].
    by repeat split.
  - prim H. repeat split; try done. by rewrite app_nil_r.
Qed.

Lemma redraw_step_inert ingest ev w r w' :
  inert ingest -> _to_listen_new_events w = false ->
  redraw_step ingest ev w = (r, w') ->
  same_state w w' /\ (r = Ok tt -> calls w' = calls w ++ redraw_call ev).
Proof.
  intros Hi Hw H. unfold redraw_step, is_in_debug_mode in H.
  inv_bind H as dbg w1 H1 H2; prim H1.
  inv_bind H2 as u w2 H2 H3.
  - assert (same_state w1 w2 /\ calls w2 = calls w1) as [Hs Hcalls].
    { destruct (debug_mode w1); prim H2; by repeat split. }
    assert (_to_listen_new_events w2 = false) as Hw2.
    { destruct Hs as (_&->&_). done. }
    destruct (redraw_node_inert _ _ _ _ _ Hi Hw2 H3) as (Hs1 & Hc1).
    split; [eauto using same_state_trans|].
    intros ->. by rewrite Hc1, Hcalls.
  - destruct (debug_mode w1); prim H2.
Qed.

Lemma redraw_loop_inert ingest evs w r w' :
  inert ingest -> _to_listen_new_events w = false ->
  for_each (redraw_step ingest) evs w = (r, w') ->
  same_state w w' /\ (r = Ok tt -> calls w' = calls w ++ redraw_calls evs).
Proof.
  intros Hi. revert w r w'.
  induction evs as [|ev evs IH]; simpl; intros w r w' Hw H.
  - prim H. split; [apply same_state_refl | by rewrite app_nil_r].
  - inv_bind H as u w1 H1 H2.
    + destruct (redraw_step_inert _ _ _ _ _ Hi Hw H1) as (Hs1 & Hc1).
      assert (_to_listen_new_events w1 = false) as Hw1.
      { destruct Hs1 as (_&->&_). done. }
      destruct (IH _ _ _ Hw1 H2) as (Hs2 & Hc2).
      split; [eauto using same_state_trans|].
      intros ->. destruct u. rewrite Hc2, Hc1 by done.
      unfold redraw_calls. simpl. by rewrite app_assoc.
    + destruct (redraw_step_inert _ _ _ _ _ Hi Hw H1) as (Hs1 & _).
      subst r. split; [done | intros [=]].
Qed.

Lemma redraw_nodes_inert ingest sv_events w r w' :
  inert ingest -> _to_listen_new_events w = false ->
  redraw_nodes ingest sv_events w = (r, w') ->
  same_state w w'
  /\ (r = Ok tt ->
      exists evs, sv_events = Some evs /\ calls w' = calls w ++ redraw_calls evs).
Proof.
  intros Hi Hw H. unfold redraw_nodes in H.
  change (bind (iter sv_events) (for_each (redraw_step ingest)) w = (r, w')) in H.
  inv_bind H as evs w1 H1 H2.
  - destruct sv_events as [evs'|]; prim H1.
    destruct (redraw_loop_inert _ _ _ _ _ Hi Hw H2) as (Hs & Hcalls).
    split; [done|]. intros ->. exists evs. auto.
  - destruct sv_events as [evs'|]; prim H1. split; [apply same_state_refl | done].
Qed.

Lemma update_nodes_inert ingest sv_events w r w' :
  inert ingest -> _to_listen_new_events w = false ->
  update_nodes ingest sv_events w = (r, w') ->
  same_state w w'
  /\ (r = Ok tt ->
      exists evs, sv_events = Some evs
                  /\ calls w' = calls w ++ [Process (nodes_to_process evs)]).
Proof.
  intros Hi Hw H. unfold update_nodes in H.
  inv_bind H as evs w1 H1 H2.
  - destruct sv_events as [evs'|]; prim H1.
    inv_bind H2 as u w2 H2 H3; prim H2.
    apply run_actions_inert in H3 as ->; [|done..].
    split; [by repeat split|]. intros _. by exists evs.
  - destruct sv_events as [evs'|]; prim H1. split; [apply same_state_refl | done].
Qed.

(** *** One call of [handle_new_event] *)

Lemma handle_new_event_not_ended ingest w :
  is_end (current_wave w) = Ok false -> handle_new_event ingest w = (Ok tt, w).
Proof.
  intros E. unfold handle_new_event, bind, gets, lift_result. by rewrite E.
Qed.

Lemma handle_new_event_ended ingest w r w' :
  inert ingest ->
  is_end (current_wave w) = Ok true ->
  handle_new_event ingest w = (r, w') ->
  (forall e, r = Raised e ->
             _to_listen_new_events w' = false /\ current_wave w' = current_wave w)
  /\ (r = Ok tt ->
      exists evs w1,
        convert_to_sverchok_events (current_wave w) (set_to_listen false w)
        = (Ok (Some evs), w1)
        /\ calls w' = calls w ++ redraw_calls evs ++ [Process (nodes_to_process evs)]
        /\ current_wave w' = EventsWave_init
        /\ _to_listen_new_events w' = true).
Proof.
  intros Hi E H. unfold handle_new_event in H.
  inv_bind H as wv wa H0 H; prim H0.
  inv_bind H as ended wb H0 H; unfold lift_result in H0; rewrite E in H0;
    simplify_eq.
  simpl in H.
  inv_bind H as u wc H0 H; prim H0.
  inv_bind H as wv' wd H0 H; prim H0. simpl in H.
  (* classification *)
  inv_bind H as sv_events w1 H1 H.
  2:{ apply keeps_convert_to_sverchok_events in H1 as (?&?&_).
      try subst r; split; [intros ? _; simpl in *; split; congruence | intros [=]]. }
  pose proof (keeps_convert_to_sverchok_events _ _ _ _ H1) as (W1&L1&C1&_).
  simpl in W1, L1, C1.
  (* the tree to reconcile *)
  inv_bind H as tr w2 H2 H.
  2:{ apply keeps_tree_reconstruction in H2 as (?&?&_).
      try subst r; split; [intros ? _; simpl in *; split; congruence | intros [=]]. }
  pose proof (keeps_tree_reconstruction _ _ _ H2) as (W2&L2&C2&_).
  inv_bind H as self w3 H3 H.
  2:{ destruct tr; prim H3. try subst r; split; [intros ? _; simpl in *; split; congruence | intros [=]]. }
  destruct tr as [self'|]; prim H3.
  (* reconciliation *)
  inv_bind H as u w4 H4 H.
  2:{ apply keeps_update_reconstruction in H4 as (?&?&_).
      try subst r; split; [intros ? _; simpl in *; split; congruence | intros [=]]. }
  pose proof (keeps_update_reconstruction _ _ _ _ _ H4) as (W4&L4&C4&_).
  assert (_to_listen_new_events w4 = false) as F4 by congruence.
  (* redraw *)
  inv_bind H as u5 w5 H5 H.
  2:{ apply redraw_nodes_inert in H5 as ((?&?&_)&_); [|done..].
      try subst r; split; [intros ? _; simpl in *; split; congruence | intros [=]]. }
  destruct u5.
  pose proof (redraw_nodes_inert _ _ _ _ _ Hi F4 H5) as ((W5&L5&_)&C5).
  destruct C5 as (evs & -> & C5); [done|].
  assert (_to_listen_new_events w5 = false) as F5 by congruence.
  (* recomputation *)
  inv_bind H as u6 w6 H6 H.
  2:{ apply update_nodes_inert in H6 as ((?&?&_)&_); [|done..].
      try subst r; split; [intros ? _; simpl in *; split; congruence | intros [=]]. }
  destruct u6.
  pose proof (update_nodes_inert _ _ _ _ _ Hi F5 H6) as ((W6&L6&_)&C6).
  destruct C6 as (evs' & [= <-] & C6); [done|].
  inv_bind H as u7 w7 H7 H; prim H7. prim H.
  split; [intros ? [=]|]. intros _.
  exists evs, w1. split; [done|]. simpl. split; [|done].
  rewrite C6, C5, C4, C2, C1. by rewrite app_assoc.
Qed.

(** *** [add_new_event] *)

Lemma add_new_event_suppressed depth ev w :
  _to_listen_new_events w = false -> add_new_event depth ev w = (Ok tt, w).
Proof.
  intros Hw. destruct depth; simpl; unfold bind, gets; by rewrite Hw.
Qed.

Lemma add_new_event_listening depth ev w :
  _to_listen_new_events w = true ->
  add_new_event depth ev w = handle_new_event (nested depth) (arrive ev w).
Proof.
  intros Hw. unfold arrive.
  destruct depth; simpl.
  all: rewrite (bind_ok (gets _to_listen_new_events) _ w true w)
    by (unfold gets; by rewrite Hw).
  all: simpl; rewrite (bind_ok is_in_debug_mode _ w (debug_mode w) w) by done.
  all: destruct (debug_mode w).
  all: erewrite bind_ok by reflexivity.
  all: erewrite bind_ok by reflexivity.
  all: reflexivity.
Qed.

Lemma add_new_event_silent depth : silent (add_new_event depth).
Proof. intros ev w. apply add_new_event_suppressed. Qed.

Lemma nested_inert depth : inert (nested depth).
Proof.
  destruct depth; simpl.
  - apply raise_inert.
  - apply silent_inert, add_new_event_silent.
Qed.

Lemma arrive_fields ev w :
  _to_listen_new_events (arrive ev w) = _to_listen_new_events w
  /\ calls (arrive ev w) = calls w
  /\ node_trees (arrive ev w) = node_trees w
  /\ node_groups (arrive ev w) = node_groups w
  /\ debug_mode (arrive ev w) = debug_mode w
  /\ current_wave (arrive ev w) = add_event (current_wave w) ev.
Proof.
  unfold arrive. destruct (debug_mode w) eqn:E; simpl; rewrite ?E; by repeat split.
Qed.

Lemma add_new_event_cases depth ev w r w' :
  _to_listen_new_events w = true ->
  add_new_event depth ev w = (r, w') ->
  (is_end (add_event (current_wave w) ev) = Ok false /\ r = Ok tt /\ w' = arrive ev w)
  \/ (is_end (add_event (current_wave w) ev) = Ok true
      /\ handle_new_event (nested depth) (arrive ev w) = (r, w')).
Proof.
  intros Hw H. rewrite add_new_event_listening in H by done.
  destruct (arrive_fields ev w) as (_&_&_&_&_&Hwave).
  destruct (is_end_total (add_event (current_wave w) ev)) as [[|] E].
  - right. by split.
  - left. rewrite handle_new_event_not_ended in H by (by rewrite Hwave).
    by simplify_eq.
Qed.

Lemma add_new_event_consistent depth ev w r w' :
  consistent w -> add_new_event depth ev w = (r, w') -> consistent w'.
Proof.
  intros Hc H. destruct (_to_listen_new_events w) eqn:Hw.
  - destruct (add_new_event_cases _ _ _ _ _ Hw H) as [(E&->&->)|(E&H')].
    + intros _. by destruct (arrive_fields ev w) as (_&_&_&_&_&->).
    + destruct (arrive_fields ev w) as (_&_&_&_&_&Hwave).
      rewrite <- Hwave in E.
      destruct (handle_new_event_ended _ _ _ _ (nested_inert depth) E H')
        as [Hr Ho].
      destruct r as [[]|e].
      * destruct Ho as (evs & w1 & _ & _ & Hwv & _); [done|].
        intros _. by rewrite Hwv.
      * destruct (Hr e) as [Hf _]; [done|]. intros Hl. congruence.
  - rewrite add_new_event_suppressed in H by done. by simplify_eq.
Qed.

(** C9. An event of kind [node_update] leaves the wave as it is: the
    object that [add_event] returns is the one it was given, with the same
    events in the same number; and [add_new_event], called in any state
    the scheduler can be in, returns with the wave unchanged. *)
Theorem node_update_leaves_wave :
  forall (self : EventsWave) (depth : nat) (bl_event : BlenderEvent) (w : World),
    type bl_event = BlenderEventsTypes.node_update ->
    consistent w ->
    add_event self bl_event = self
    /\ length (events_wave (add_event self bl_event)) = length (events_wave self)
    /\ exists w', add_new_event depth bl_event w = (Ok tt, w')
                  /\ current_wave w' = current_wave w.
Proof.
  intros self depth ev w Hk Hc.
  rewrite !add_event_node_update by done. repeat split.
  destruct (_to_listen_new_events w) eqn:Hw.
  - exists (arrive ev w).
    destruct (arrive_fields ev w) as (_&_&_&_&_&Hwave).
    rewrite add_event_node_update in Hwave by done.
    rewrite add_new_event_listening by done.
    rewrite handle_new_event_not_ended; [done|].
    rewrite Hwave. by apply Hc.
  - exists w. by rewrite add_new_event_suppressed.
Qed.

Lemma not_ended_shape self :
  is_end self = Ok false <->
  events_wave self = []
  \/ exists l ev, events_wave self = l ++ [ev] /\ terminator (type ev) = false.
Proof.
  destruct self as [l a b c d]. simpl.
  destruct l as [|x l _] using rev_ind.
  - split; [by left | done].
  - rewrite is_end_snoc, is_wave_end_terminator. split.
    + intros [= E]. right. by exists l, x.
    + intros [E|(l' & ev & E & T)].
      * by destruct l.
      * apply app_inj_tail in E as [_ ->]. by rewrite T.
Qed.

Lemma convert_not_ended (self : EventsWave) (w : World) :
  is_end self = Ok false ->
  convert_to_sverchok_events self w
  = (Raised (RuntimeError "You should waite wave end before calling this method"), w).
Proof.
  intros H. unfold convert_to_sverchok_events, bind, lift_result. by rewrite H.
Qed.

(** C6. Called on a wave that has not ended, that is on an empty wave or
    on one whose newest event is not of a terminating kind,
    [convert_to_sverchok_events] raises [RuntimeError]; the exception
    reaches the caller and the world is as it was. *)
Theorem convert_before_end_raises :
  forall (self : EventsWave) (w : World),
    (events_wave self = []
     \/ exists l ev, events_wave self = l ++ [ev] /\ terminator (type ev) = false) ->
    convert_to_sverchok_events self w
    = (Raised (RuntimeError "You should waite wave end before calling this method"), w).
Proof.
  intros self w H. apply convert_not_ended. by apply not_ended_shape.
Qed.

(** C10. On an empty wave [is_end] answers false and raises no
    [IndexError]. Hence an event that is filtered out on an empty wave
    starts no dispatch (no call is made, no tree object is touched, the
    flag and the wave stay), and classification of an empty wave stops at
    the [RuntimeError] before any element of the wave is read. *)
Theorem empty_wave_is_not_ended :
  forall (depth : nat) (bl_event : BlenderEvent) (w : World) a b c d,
    is_end (mkEventsWave [] a b c d) = Ok false
    /\ (events_wave (current_wave w) = [] ->
        type bl_event = BlenderEventsTypes.node_update ->
        (exists w', add_new_event depth bl_event w = (Ok tt, w')
                    /\ current_wave w' = current_wave w
                    /\ calls w' = calls w
                    /\ node_trees w' = node_trees w
                    /\ _to_listen_new_events w' = _to_listen_new_events w)
        /\ convert_to_sverchok_events (current_wave w) w
           = (Raised (RuntimeError "You should waite wave end before calling this method"),
              w)).
Proof.
  intros depth ev w a b c d. split; [done|]. intros Hnil Hk.
  assert (is_end (current_wave w) = Ok false) as E.
  { apply not_ended_shape. by left. }
  split.
  - destruct (_to_listen_new_events w) eqn:Hw.
    + exists (arrive ev w).
      destruct (arrive_fields ev w) as (Hl&Hcalls&Ht&_&_&Hwave).
      rewrite add_event_node_update in Hwave by done.
      rewrite add_new_event_listening by done.
      rewrite handle_new_event_not_ended by (by rewrite Hwave).
      repeat split; congruence.
    + exists w. by rewrite add_new_event_suppressed.
  - by apply convert_not_ended.
Qed.

(** C1, as the code has it. From a listening state, [add_new_event] returns
    normally with the flag up. If instead an exception leaves it (raised by
    classification, reconciliation, redrawing or recomputation), the flag is
    down and the ended wave is still in place, and from then on every
    call of [add_new_event] returns at once and changes nothing. *)
Theorem flag_follows_completion :
  forall (depth : nat) (bl_event : BlenderEvent) (w w' : World) (r : Result unit),
    _to_listen_new_events w = true ->
    add_new_event depth bl_event w = (r, w') ->
    (r = Ok tt -> _to_listen_new_events w' = true)
    /\ (forall e, r = Raised e ->
                  _to_listen_new_events w' = false
                  /\ current_wave w' = add_event (current_wave w) bl_event
                  /\ is_end (current_wave w') = Ok true
                  /\ forall d ev, add_new_event d ev w' = (Ok tt, w')).
Proof.
  intros depth ev w w' r Hw H.
  destruct (arrive_fields ev w) as (Hl&_&_&_&_&Hwave).
  destruct (add_new_event_cases _ _ _ _ _ Hw H) as [(E&->&->)|(E&H')].
  - split; [intros _; congruence | intros ? [=]].
  - rewrite <- Hwave in E.
    destruct (handle_new_event_ended _ _ _ _ (nested_inert depth) E H')
      as [Hr Ho].
    split.
    + intros ->. by destruct Ho as (evs & w1 & _ & _ & _ & ?).
    + intros e ->. destruct (Hr e) as [Hf Hwv]; [done|].
      repeat split; try congruence.
      intros d ev'. by apply add_new_event_suppressed.
Qed.

(** *** A whole wave *)


Lemma ingest_non_terminators depth evs w :
  _to_listen_new_events w = true ->
  is_end (current_wave w) = Ok false ->
  Forall (fun ev => terminator (type ev) = false) evs ->
  exists w1,
    ingest_all depth evs w = (Ok tt, w1)
    /\ _to_listen_new_events w1 = true
    /\ is_end (current_wave w1) = Ok false
    /\ calls w1 = calls w
    /\ node_trees w1 = node_trees w
    /\ events_wave (current_wave w1)
       = events_wave (current_wave w)
         ++ List.filter
              (fun ev => negb (BlenderEventsTypes.eqb (type ev)
                                 BlenderEventsTypes.node_update)) evs.
Proof.
  intros Hw E Hall. revert w Hw E.
  induction Hall as [|ev evs Hev Hall IH]; intros w Hw E.
  - exists w. simpl. rewrite app_nil_r. by repeat split.
  - destruct (arrive_fields ev w) as (Hl&Hcalls&Ht&_&_&Hwave).
    assert (is_end (current_wave (arrive ev w)) = Ok false) as E1.
    { rewrite Hwave, is_end_add_event. by destruct (type ev). }
    destruct (IH (arrive ev w)) as (w1 & Hrun & Hl1 & E2 & Hc1 & Ht1 & Hev1);
      [congruence | done |].
    exists w1. unfold ingest_all in *. simpl.
    rewrite (bind_ok _ _ w tt (arrive ev w)).
    2:{ rewrite add_new_event_listening by done.
        by apply handle_new_event_not_ended. }
    repeat split; try congruence.
    rewrite Hev1, Hwave. unfold add_event.
    destruct (BlenderEventsTypes.eqb (type ev) BlenderEventsTypes.node_update);
      simpl; [done|]. by rewrite <- app_assoc.
Qed.

Lemma processes_app cs1 cs2 : processes (cs1 ++ cs2) = processes cs1 + processes cs2.
Proof. unfold processes. by rewrite List.filter_app, length_app. Qed.



(** *** What is redrawn and what is recomputed *)



Lemma convert_by_table self w :
  is_end self = Ok true ->
  (forall l ev, events_wave self = l ++ [ev] ->
                type ev <> BlenderEventsTypes.tree_update
                /\ type ev <> BlenderEventsTypes.monad_tree_update) ->
  convert_to_sverchok_events self w
  = (Ok (Some (map convert_to_sverchok_event (events_wave self))), w).
Proof.
  intros E Hlast. unfold convert_to_sverchok_events, bind, lift_result.
  rewrite E. simpl.
  destruct self as [l a b c d]. simpl in *.
  destruct l as [|x l _] using rev_ind; [done|].
  rewrite index_last_snoc.
  destruct (Hlast l x eq_refl) as [H1 H2].
  unfold BlenderEventsTypes.eqb.
  by rewrite !bool_decide_eq_false_2.
Qed.





End DispatchFacts.

(** ** Calls of [add_new_event] from inside a dispatch *)


Lemma bind_ext {A B} (c1 c2 : M A) (k1 k2 : A -> M B) w :
  c1 w = c2 w ->
  (forall a w1, c1 w = (Ok a, w1) -> k1 a w1 = k2 a w1) ->
  bind c1 k1 w = bind c2 k2 w.
Proof.
  intros Hc Hk. unfold bind. rewrite <- Hc.
  destruct (c1 w) as [[a|e] w1]; [by apply Hk | done].
Qed.

Section SameOutcome.

(** Two sets of collaborators that agree on the two methods and whose
    callables raise the same exceptions, and two ingest functions that
    return at once while the flag is down. *)
Variables C1 C2 : Collaborators.
Variables i1 i2 : BlenderEvent -> M unit.
Hypothesis same_lookup :
  @get_node_tree_reconstruction C1 = @get_node_tree_reconstruction C2.
Hypothesis same_known :
  @convert_known_events C1 = @convert_known_events C2.
Hypothesis same_calls :
  forall f args, first_raise (@call_body C1 f args) = first_raise (@call_body C2 f args).
Hypothesis same_process :
  forall ns, first_raise (@process_from_nodes C1 ns)
             = first_raise (@process_from_nodes C2 ns).
Hypothesis silent1 : silent i1.
Hypothesis silent2 : silent i2.

Lemma redraw_step_same ev w :
  _to_listen_new_events w = false ->
  redraw_step (C:=C1) i1 ev w = redraw_step (C:=C2) i2 ev w.
Proof.
  intros Hw. unfold redraw_step.
  apply bind_ext; [done|]. intros dbg w1 H1. unfold is_in_debug_mode in H1. prim H1.
  apply bind_ext; [done|]. intros [] w2 H2.
  assert (_to_listen_new_events w2 = false) as Hw2.
  { destruct (debug_mode w1); prim H2; done. }
  unfold redraw_node. destruct (sv_update_function ev) as [f|]; [|done].
  apply bind_ext; [done|]. intros [] w3 H3. prim H3.
  rewrite !run_actions_silent by done. by rewrite same_calls.
Qed.

Lemma redraw_loop_same evs w :
  _to_listen_new_events w = false ->
  for_each (redraw_step (C:=C1) i1) evs w = for_each (redraw_step (C:=C2) i2) evs w.
Proof.
  revert w. induction evs as [|ev evs IH]; intros w Hw; simpl; [done|].
  apply bind_ext; [by apply redraw_step_same|].
  intros [] w1 H1. apply IH.
  apply redraw_step_inert in H1 as [(_&->&_) _];
    [done | by apply silent_inert | done].
Qed.

Lemma redraw_nodes_same sv_events w :
  _to_listen_new_events w = false ->
  redraw_nodes (C:=C1) i1 sv_events w = redraw_nodes (C:=C2) i2 sv_events w.
Proof.
  intros Hw. unfold redraw_nodes.
  apply bind_ext; [done|]. intros evs w1 H1.
  destruct sv_events; prim H1. by apply redraw_loop_same.
Qed.

Lemma update_nodes_same sv_events w :
  _to_listen_new_events w = false ->
  update_nodes (C:=C1) i1 sv_events w = update_nodes (C:=C2) i2 sv_events w.
Proof.
  intros Hw. unfold update_nodes.
  apply bind_ext; [done|]. intros evs w1 H1.
  destruct sv_events; prim H1.
  apply bind_ext; [done|]. intros [] w2 H2. prim H2.
  rewrite !run_actions_silent by done. by rewrite same_process.
Qed.

Lemma convert_to_sverchok_events_same self :
  convert_to_sverchok_events (C:=C1) self = convert_to_sverchok_events (C:=C2) self.
Proof.
  unfold convert_to_sverchok_events, analyze_changes, links_difference,
    nodes_difference, previous_tree.
  by rewrite same_lookup, same_known.
Qed.

Lemma tree_reconstruction_same :
  tree_reconstruction (C:=C1) = tree_reconstruction (C:=C2).
Proof. unfold tree_reconstruction, previous_tree. by rewrite same_lookup. Qed.

Lemma handle_new_event_same w :
  handle_new_event (C:=C1) i1 w = handle_new_event (C:=C2) i2 w.
Proof.
  unfold handle_new_event.
  apply bind_ext; [done|]. intros wv w1 H1. prim H1.
  apply bind_ext; [done|]. intros ended w2 H2. prim H2.
  destruct ended; simpl; [|done].
  apply bind_ext; [done|]. intros [] w3 H3. prim H3.
  apply bind_ext; [done|]. intros wv' w4 H4. prim H4.
  apply bind_ext; [by rewrite convert_to_sverchok_events_same|].
  intros sv_events w5 H5.
  apply keeps_convert_to_sverchok_events in H5 as (_&L5&_).
  apply bind_ext; [by rewrite tree_reconstruction_same|]. intros tr w6 H6.
  apply keeps_tree_reconstruction in H6 as (_&L6&_).
  apply bind_ext; [done|]. intros self w7 H7. destruct tr; prim H7.
  apply bind_ext; [done|]. intros [] w8 H8.
  apply keeps_update_reconstruction in H8 as (_&L8&_).
  assert (_to_listen_new_events w8 = false) as F8 by (simpl in *; congruence).
  apply bind_ext; [by apply redraw_nodes_same|]. intros [] w9 H9.
  apply redraw_nodes_inert in H9 as [(_&L9&_) _];
    [| by apply silent_inert | done].
  apply bind_ext; [apply update_nodes_same; congruence|]. done.
Qed.

End SameOutcome.

Section NestedIngest.

Context {C : Collaborators}.

(** A call that a callable makes to [add_new_event] needs one more level
    of depth and nothing else. *)
Lemma depth_one_is_enough depth ev w :
  add_new_event (S depth) ev w = add_new_event 1 ev w.
Proof.
  destruct (_to_listen_new_events w) eqn:Hw.
  - rewrite !add_new_event_listening by done.
    apply handle_new_event_same; try done; apply add_new_event_silent.
  - by rewrite !add_new_event_suppressed.
Qed.


End NestedIngest.

(** ** Reconciliation *)

Lemma get_tree_run self t w :
  node_trees w !! self = Some t -> get_tree self w = (Ok t, w).
Proof. unfold get_tree. by intros ->. Qed.

Lemma NodesCollection_add_run self t n w :
  node_trees w !! self = Some t ->
  NodesCollection_add self n w
  = (Ok tt,
     set_node_trees
       (<[self := set_nodes t (<[node_id n := SvNode_init (node_id n) (node_name n)]>
                                 (nodes t))]> (node_trees w)) w).
Proof.
  intros Ht. unfold NodesCollection_add.
  by rewrite (bind_ok _ _ _ _ _ (get_tree_run _ _ _ Ht)).
Qed.

Lemma nodes_loop self ns : forall t w,
  node_trees w !! self = Some t ->
  exists t1 w1,
    for_each (NodesCollection_add self) ns w = (Ok tt, w1)
    /\ node_trees w1 = <[self := t1]> (node_trees w)
    /\ dom (nodes t1) = dom (nodes t) ∪ list_to_set (map node_id ns)
    /\ links t1 = links t
    /\ tree_key t1 = tree_key t.
Proof.
  induction ns as [|n ns IH]; intros t w Ht; simpl.
  - exists t, w. repeat split; try done.
    + by rewrite insert_id.
    + set_solver.
  - rewrite (bind_ok _ _ _ _ _ (NodesCollection_add_run _ _ n _ Ht)).
    set (t' := set_nodes t _). set (w' := set_node_trees _ w).
    destruct (IH t' w') as (t1 & w1 & Hrun & Hm & Hn & Hl & Hk).
    { subst w'. simpl. apply lookup_insert_eq. }
    exists t1, w1. repeat split; try done.
    + rewrite Hm. subst w'. simpl. apply insert_insert_eq.
    + rewrite Hn. subst t'. simpl. rewrite dom_insert_L. set_solver.
Qed.

Lemma LinksCollection_add_ok self t l w w1 :
  node_trees w !! self = Some t ->
  LinksCollection_add self l w = (Ok tt, w1) ->
  exists t1,
    node_trees w1 = <[self := t1]> (node_trees w)
    /\ dom (nodes t1) = dom (nodes t)
    /\ dom (links t1) = {[link_identity l]} ∪ dom (links t)
    /\ tree_key t1 = tree_key t.
Proof.
  intros Ht H. unfold LinksCollection_add in H.
  rewrite (bind_ok _ _ _ _ _ (get_tree_run _ _ _ Ht)) in H.
  unfold NodesCollection_getitem in H.
  destruct (nodes t !! node_id (from_node l)) as [fn|]; [|by prim H].
  rewrite (bind_ok _ _ w fn w) in H by done.
  destruct (nodes t !! node_id (to_node l)) as [tn|]; [|by prim H].
  rewrite (bind_ok _ _ w tn w) in H by done.
  unfold put_tree in H. prim H.
  eexists. split; [reflexivity|]. simpl.
  rewrite !dom_alter_L, dom_insert_L. done.
Qed.

Lemma LinksCollection_add_run self t l w :
  node_trees w !! self = Some t ->
  node_id (from_node l) ∈ dom (nodes t) ->
  node_id (to_node l) ∈ dom (nodes t) ->
  exists w1, LinksCollection_add self l w = (Ok tt, w1).
Proof.
  intros Ht [fn Hf]%elem_of_dom [tn Hn]%elem_of_dom.
  unfold LinksCollection_add.
  rewrite (bind_ok _ _ _ _ _ (get_tree_run _ _ _ Ht)).
  unfold NodesCollection_getitem. rewrite Hf, Hn.
  rewrite (bind_ok _ _ w fn w) by done.
  rewrite (bind_ok _ _ w tn w) by done.
  eexists. reflexivity.
Qed.

Lemma links_loop_ok self ls : forall t w w1,
  node_trees w !! self = Some t ->
  for_each (LinksCollection_add self) ls w = (Ok tt, w1) ->
  exists t1,
    node_trees w1 = <[self := t1]> (node_trees w)
    /\ dom (nodes t1) = dom (nodes t)
    /\ dom (links t1) = dom (links t) ∪ list_to_set (map link_identity ls)
    /\ tree_key t1 = tree_key t.
Proof.
  induction ls as [|l ls IH]; intros t w w1 Ht H; simpl in H.
  - prim H. exists t. repeat split; try done.
    + by rewrite insert_id.
    + set_solver.
  - inv_bind H as u w2 H1 H2; [|done]. destruct u.
    destruct (LinksCollection_add_ok _ _ _ _ _ Ht H1) as (t2 & Hm2 & Hn2 & Hl2 & Hk2).
    destruct (IH t2 w2 w1) as (t1 & Hm & Hn & Hl & Hk); [|done|].
    { rewrite Hm2. apply lookup_insert_eq. }
    exists t1. repeat split; try congruence.
    + rewrite Hm, Hm2. apply insert_insert_eq.
    + rewrite Hl, Hl2. simpl. set_solver.
Qed.

Lemma links_loop_run self ls : forall t w,
  node_trees w !! self = Some t ->
  Forall (fun l => node_id (from_node l) ∈ dom (nodes t)
                   /\ node_id (to_node l) ∈ dom (nodes t)) ls ->
  exists w1, for_each (LinksCollection_add self) ls w = (Ok tt, w1).
Proof.
  induction ls as [|l ls IH]; intros t w Ht Hall; simpl.
  - by exists w.
  - inversion Hall as [|? ? [Hf Hn] Hall']; subst.
    destruct (LinksCollection_add_run _ _ l _ Ht Hf Hn) as (w2 & H2).
    destruct (LinksCollection_add_ok _ _ _ _ _ Ht H2) as (t2 & Hm2 & Hn2 & _).
    destruct (IH t2 w2) as (w1 & H1).
    { rewrite Hm2. apply lookup_insert_eq. }
    { by rewrite Hn2. }
    exists w1. by rewrite (bind_ok _ _ _ _ _ H2).
Qed.

Lemma get_blender_tree_run self t bl_tree w :
  node_trees w !! self = Some t ->
  search_node_groups (node_groups w) (tree_key t) = Some bl_tree ->
  get_blender_tree self w = (Ok bl_tree, w).
Proof.
  intros Ht Hs. unfold get_blender_tree.
  rewrite (bind_ok _ _ _ _ _ (get_tree_run _ _ _ Ht)).
  rewrite (bind_ok _ _ w (node_groups w) w) by done.
  by rewrite Hs.
Qed.

Lemma total_reconstruction_run self t bl_tree w :
  node_trees w !! self = Some t ->
  search_node_groups (node_groups w) (tree_key t) = Some bl_tree ->
  links_join_nodes bl_tree ->
  exists t1 w1,
    total_reconstruction self w = (Ok tt, w1)
    /\ node_trees w1 = <[self := t1]> (node_trees w)
    /\ node_groups w1 = node_groups w
    /\ dom (nodes t1) = dom (nodes t) ∪ list_to_set (map node_id (tree_nodes bl_tree))
    /\ dom (links t1)
       = dom (links t) ∪ list_to_set (map link_identity (tree_links bl_tree))
    /\ tree_key t1 = tree_key t.
Proof.
  intros Ht Hs Hwf. unfold total_reconstruction.
  rewrite (bind_ok _ _ _ _ _ (get_blender_tree_run _ _ _ _ Ht Hs)).
  destruct (nodes_loop self (tree_nodes bl_tree) t w Ht)
    as (t1 & w1 & Hrun1 & Hm1 & Hn1 & Hl1 & Hk1).
  rewrite (bind_ok _ _ _ _ _ Hrun1).
  assert (node_trees w1 !! self = Some t1) as Ht1.
  { rewrite Hm1. apply lookup_insert_eq. }
  destruct (links_loop_run self (tree_links bl_tree) t1 w1 Ht1) as (w2 & Hrun2).
  { eapply Forall_impl; [exact Hwf|]. intros l [Hf Hn]. simpl in *.
    rewrite Hn1. set_solver. }
  destruct (links_loop_ok _ _ _ _ _ Ht1 Hrun2) as (t2 & Hm2 & Hn2 & Hl2 & Hk2).
  exists t2, w2. repeat split; try congruence.
  - rewrite Hm2, Hm1. apply insert_insert_eq.
  - apply (keeps_for_each (LinksCollection_add self)) in Hrun2 as (_&_&_&->&_);
      [|apply keeps_LinksCollection_add].
    apply (keeps_for_each (NodesCollection_add self)) in Hrun1 as (_&_&_&->&_);
      [done|apply keeps_NodesCollection_add].
Qed.

Lemma check_reconstruction_correctness_run self t bl_tree w :
  node_trees w !! self = Some t ->
  search_node_groups (node_groups w) (tree_key t) = Some bl_tree ->
  exists w1, check_reconstruction_correctness self w = (Ok tt, w1)
             /\ node_trees w1 = node_trees w.
Proof.
  intros Ht Hs. unfold check_reconstruction_correctness.
  rewrite (bind_ok _ _ _ _ _ (get_blender_tree_run _ _ _ _ Ht Hs)).
  rewrite (bind_ok _ _ _ _ _ (get_tree_run _ _ _ Ht)).
  match goal with |- context [if ?b then _ else _] => destruct b end;
    eexists; split; reflexivity.
Qed.

Lemma check_reconstruction_correctness_store self w r w1 :
  check_reconstruction_correctness self w = (r, w1) -> node_trees w1 = node_trees w.
Proof.
  intros H. unfold check_reconstruction_correctness in H.
  inv_bind H as bl w2 H1 H2.
  - unfold get_blender_tree in H1.
    inv_bind H1 as t w3 H3 H4; [|done].
    unfold get_tree in H3. destruct (node_trees w !! self); prim H3.
    inv_bind H4 as ngs w4 H4 H5; prim H4.
    destruct (search_node_groups _ _); prim H5.
    inv_bind H2 as t' w5 H2 H6.
    + unfold get_tree in H2. destruct (node_trees w2 !! self); prim H2.
      match type of H6 with context [if ?b then _ else _] => destruct b end;
        by prim H6.
    + unfold get_tree in H2. by destruct (node_trees w2 !! self); prim H2.
  - unfold get_blender_tree in H1.
    inv_bind H1 as t w3 H3 H4.
    + unfold get_tree in H3. destruct (node_trees w !! self); prim H3.
      inv_bind H4 as ngs w4 H4 H5; prim H4.
      by destruct (search_node_groups _ _); prim H5.
    + unfold get_tree in H3. by destruct (node_trees w !! self); prim H3.
Qed.

(** ** Reconciliation that returns *)

Lemma need_total_reconstruction_run self t w :
  node_trees w !! self = Some t ->
  need_total_reconstruction self w = (Ok (negb (Nat.eqb (size (nodes t)) 0)), w).
Proof.
  intros Ht. unfold need_total_reconstruction.
  by rewrite (bind_ok _ _ _ _ _ (get_tree_run _ _ _ Ht)).
Qed.

Lemma update_reconstruction_run self t g evs w :
  node_trees w !! self = Some t ->
  search_node_groups (node_groups w) (tree_key t) = Some g ->
  links_join_nodes g ->
  exists w', update_reconstruction self evs w = (Ok tt, w').
Proof.
  intros Ht Hs Hwf. unfold update_reconstruction.
  rewrite (bind_ok _ _ _ _ _ (need_total_reconstruction_run _ _ _ Ht)).
  destruct (negb (Nat.eqb (size (nodes t)) 0)).
  - destruct (total_reconstruction_run _ _ _ _ Ht Hs Hwf)
      as (t1 & w1 & Hrun & Hm & Hg & _ & _ & Hk).
    rewrite (bind_ok _ _ _ _ _ Hrun).
    rewrite (bind_ok _ _ w1 (debug_mode w1) w1) by done.
    destruct (debug_mode w1); [|by eexists].
    destruct (check_reconstruction_correctness_run self t1 g w1) as (w2 & H2 & _).
    + rewrite Hm. apply lookup_insert_eq.
    + by rewrite Hg, Hk.
    + by exists w2.
  - rewrite (bind_ok _ _ w tt w) by done.
    rewrite (bind_ok _ _ w (debug_mode w) w) by done.
    destruct (debug_mode w); [|by eexists].
    destruct (check_reconstruction_correctness_run self t g w Ht Hs) as (w2 & H2 & _).
    by exists w2.
Qed.

(** * Further properties *)

(** ** The conversion table *)

(** X1. Conversion keeps the five reference fields of an event, and on
    kinds the table is one-to-one apart from the three kinds that become
    [undefined]: two raw kinds are converted to the same Sverchok kind
    only if they are equal or both among [tree_update],
    [monad_tree_update] and [node_update].  In particular an event is
    converted to [free_node] only if it is a [free_node] event. *)
Theorem conversion_is_one_to_one :
  forall ev1 ev2 : BlenderEvent,
    sv_tree (convert_to_sverchok_event ev1) = tree ev1
    /\ sv_node (convert_to_sverchok_event ev1) = node ev1
    /\ sv_link (convert_to_sverchok_event ev1) = link ev1
    /\ sv_update_function (convert_to_sverchok_event ev1) = update_function ev1
    /\ sv_function_arguments (convert_to_sverchok_event ev1) = function_arguments ev1
    /\ (sv_type (convert_to_sverchok_event ev1) = SverchokEventsTypes.undefined
        <-> type ev1 ∈ [BlenderEventsTypes.tree_update;
                        BlenderEventsTypes.monad_tree_update;
                        BlenderEventsTypes.node_update])
    /\ (sv_type (convert_to_sverchok_event ev1)
        = sv_type (convert_to_sverchok_event ev2) ->
        type ev1 = type ev2
        \/ sv_type (convert_to_sverchok_event ev1) = SverchokEventsTypes.undefined)
    /\ (sv_type (convert_to_sverchok_event ev1) = SverchokEventsTypes.free_node
        <-> type ev1 = BlenderEventsTypes.free_node).
Proof.
  intros ev1 ev2. repeat split; simpl.
  - destruct (type ev1); simpl; intros H; try discriminate; set_solver.
  - intros H. destruct (type ev1); simpl; try reflexivity;
      exfalso; set_solver.
  - destruct (type ev1), (type ev2); simpl; intros H;
      try discriminate; auto.
  - destruct (type ev1); simpl; intros H; try discriminate; done.
  - by intros ->.
Qed.

(** ** Finding the live graph *)

Lemma search_node_groups_spec ngs self_id :
  match search_node_groups ngs self_id with
  | Some ng =>
      exists before after,
        ngs = before ++ ng :: after
        /\ bl_idname ng = "SverchCustomTreeType"
        /\ tree_id ng = self_id
        /\ Forall (fun g => bl_idname g <> "SverchCustomTreeType"
                            \/ tree_id g <> self_id) before
  | None =>
      Forall (fun g => bl_idname g <> "SverchCustomTreeType"
                       \/ tree_id g <> self_id) ngs
  end.
Proof.
  induction ngs as [|ng ngs IH]; simpl; [constructor|].
  destruct (String.eqb_spec (bl_idname ng) "SverchCustomTreeType") as [Hb|Hb].
  - destruct (String.eqb_spec (tree_id ng) self_id) as [Hi|Hi].
    + exists [], ngs. repeat split; try done.
    + destruct (search_node_groups ngs self_id) as [g|].
      * destruct IH as (before & after & -> & ? & ? & ?).
        exists (ng :: before), after. repeat split; try done.
        constructor; [by right | done].
      * constructor; [by right | done].
  - destruct (search_node_groups ngs self_id) as [g|].
    + destruct IH as (before & after & -> & ? & ? & ?).
      exists (ng :: before), after. repeat split; try done.
      constructor; [by left | done].
    + constructor; [by left | done].
Qed.

(** X2. [get_blender_tree] of a tree object returns the first node group
    of type [SverchCustomTreeType] whose [tree_id] is the object's id, and
    raises [LookupError] exactly when the host has no such group; in both
    cases the world is left as it is. *)
Theorem get_blender_tree_finds_the_first :
  forall (self : string) (t : SvTree) (w : World),
    node_trees w !! self = Some t ->
    (exists ng before after,
        get_blender_tree self w = (Ok ng, w)
        /\ node_groups w = before ++ ng :: after
        /\ bl_idname ng = "SverchCustomTreeType"
        /\ tree_id ng = tree_key t
        /\ Forall (fun g => bl_idname g <> "SverchCustomTreeType"
                            \/ tree_id g <> tree_key t) before)
    \/ (get_blender_tree self w
        = (Raised (LookupError
             "Looks like some node tree has disappeared, or its ID has changed"), w)
        /\ Forall (fun g => bl_idname g <> "SverchCustomTreeType"
                            \/ tree_id g <> tree_key t) (node_groups w)).
Proof.
  intros self t w Ht. unfold get_blender_tree.
  rewrite (bind_ok _ _ _ _ _ (get_tree_run _ _ _ Ht)).
  rewrite (bind_ok _ _ w (node_groups w) w) by done.
  pose proof (search_node_groups_spec (node_groups w) (tree_key t)) as H.
  destruct (search_node_groups (node_groups w) (tree_key t)) as [ng|].
  - left. destruct H as (before & after & ? & ? & ? & ?).
    by exists ng, before, after.
  - right. by split.
Qed.

(** ** The two collections *)

(** X3. [NodesCollection.add] followed by a subscript with the node's id
    gives a new [SvNode] with the node's id and name and with no inputs and
    no outputs, also when a node with that id was there before (its inputs
    and outputs are then gone).  The other nodes and the links stay; the
    length grows by one for a new id and stays for a known one.  On a
    reference that names no tree object the call raises and changes
    nothing. *)
Theorem nodes_add_then_getitem :
  forall (self : string) (n : Node) (w : World),
    match node_trees w !! self with
    | Some t =>
        exists t' w',
          NodesCollection_add self n w = (Ok tt, w')
          /\ node_trees w' = <[self := t']> (node_trees w)
          /\ NodesCollection_getitem t' (node_id n) w'
             = (Ok (SvNode_init (node_id n) (node_name n)), w')
          /\ (forall key, key <> node_id n -> nodes t' !! key = nodes t !! key)
          /\ links t' = links t
          /\ NodesCollection_len t'
             = (if decide (node_id n ∈ dom (nodes t))
                then NodesCollection_len t else S (NodesCollection_len t))
    | None =>
        NodesCollection_add self n w = (Raised (AttributeError "NoneType"), w)
    end.
Proof.
  intros self n w. destruct (node_trees w !! self) as [t|] eqn:Ht.
  - eexists _, _. split; [by apply NodesCollection_add_run|].
    split; [reflexivity|]. simpl.
    split; [unfold NodesCollection_getitem; simpl; by rewrite lookup_insert_eq|].
    split; [intros key Hk; simpl; by rewrite lookup_insert_ne|].
    split; [done|].
    unfold NodesCollection_len. simpl. case_decide as Hin.
    + apply elem_of_dom in Hin as [old Hold].
      rewrite <- (insert_delete_id (nodes t) (node_id n) old Hold) at 2.
      rewrite <- insert_delete_eq.
      rewrite !map_size_insert_None by apply lookup_delete_eq. done.
    + apply map_size_insert_None. by apply not_elem_of_dom.
  - unfold NodesCollection_add, bind, get_tree. by rewrite Ht.
Qed.

(** X4. [LinksCollection.add] looks up the two end nodes before it
    changes anything: when the node at the sending end is not in the node
    collection it raises [KeyError] with that node's id, otherwise when the
    node at the receiving end is not there it raises [KeyError] with that
    one's id, and in both cases the world is exactly as before. *)
Theorem links_add_missing_end :
  forall (self : string) (t : SvTree) (l : NodeLink) (w : World),
    node_trees w !! self = Some t ->
    (node_id (from_node l) ∉ dom (nodes t) ->
     LinksCollection_add self l w = (Raised (KeyError (node_id (from_node l))), w))
    /\ (node_id (from_node l) ∈ dom (nodes t) ->
        node_id (to_node l) ∉ dom (nodes t) ->
        LinksCollection_add self l w = (Raised (KeyError (node_id (to_node l))), w)).
Proof.
  intros self t l w Ht. unfold LinksCollection_add.
  rewrite (bind_ok _ _ _ _ _ (get_tree_run _ _ _ Ht)).
  unfold NodesCollection_getitem. split.
  - intros Hf%not_elem_of_dom. by rewrite Hf.
  - intros [fn Hf]%elem_of_dom Hn%not_elem_of_dom. rewrite Hf, Hn.
    by rewrite (bind_ok _ _ w fn w).
Qed.

Lemma LinksCollection_add_result self t l w fn tn :
  node_trees w !! self = Some t ->
  nodes t !! node_id (from_node l) = Some fn ->
  nodes t !! node_id (to_node l) = Some tn ->
  let lid := link_identity l in
  let sl := mkSvLink lid (node_id (from_node l)) (node_id (to_node l)) in
  let ns1 := alter (fun n => set_outputs n (<[lid := sl]> (outputs n)))
                   (node_id (from_node l)) (nodes t) in
  let ns2 := alter (fun n => set_inputs n (<[lid := sl]> (inputs n)))
                   (node_id (to_node l)) ns1 in
  LinksCollection_add self l w
  = (Ok tt,
     set_node_trees
       (<[self := set_links (set_nodes t ns2) (<[lid := sl]> (links t))]>
          (node_trees w)) w).
Proof.
  intros Ht Hf Hn. unfold LinksCollection_add.
  rewrite (bind_ok _ _ _ _ _ (get_tree_run _ _ _ Ht)).
  unfold NodesCollection_getitem. rewrite Hf, Hn.
  rewrite (bind_ok _ _ w fn w) by done.
  rewrite (bind_ok _ _ w tn w) by done.
  reflexivity.
Qed.

(** What adding a link does to the node collection: every node stays,
    the node at the sending end finds the link among its outputs, the one
    at the receiving end among its inputs, and no other entry of any
    node changes. *)
Lemma link_alters f g lid sl (ns : gmap string SvNode) :
  let ns2 := alter (fun n => set_inputs n (<[lid := sl]> (inputs n))) g
                   (alter (fun n => set_outputs n (<[lid := sl]> (outputs n))) f ns) in
  forall key n,
    ns !! key = Some n ->
    exists n',
      ns2 !! key = Some n'
      /\ sn_id n' = sn_id n /\ sn_name n' = sn_name n
      /\ (key = f -> outputs n' !! lid = Some sl)
      /\ (key = g -> inputs n' !! lid = Some sl)
      /\ (forall other, other <> lid ->
                        outputs n' !! other = outputs n !! other
                        /\ inputs n' !! other = inputs n !! other)
      /\ (key <> f -> outputs n' = outputs n)
      /\ (key <> g -> inputs n' = inputs n).
Proof.
  intros ns2 key n Hn. subst ns2.
  rewrite lookup_alter.
  case_decide; simplify_eq; rewrite lookup_alter;
    case_decide; simplify_eq; rewrite Hn; simpl;
    eexists; (split; [reflexivity|]); simpl;
    repeat split; try done; try (intros; congruence);
    try (intros; by rewrite ?lookup_insert_eq);
    try (intros; by rewrite lookup_insert_ne).
Qed.

(** X5. When both end nodes are in the node collection, [LinksCollection.add]
    puts the same [SvLink] under the link's identity (the two socket ids,
    joined) in three places: the link collection, the outputs of the
    sending node and the inputs of the receiving node; a link from a node
    to itself lands in both of that node's mappings.  No node is added or
    removed and no other link of the collection changes. *)
Theorem links_add_registers_three_times :
  forall (self : string) (t : SvTree) (l : NodeLink) (w : World),
    node_trees w !! self = Some t ->
    node_id (from_node l) ∈ dom (nodes t) ->
    node_id (to_node l) ∈ dom (nodes t) ->
    exists t' fn tn,
      LinksCollection_add self l w
      = (Ok tt, set_node_trees (<[self := t']> (node_trees w)) w)
      /\ links t' !! link_identity l
         = Some (mkSvLink (link_identity l) (node_id (from_node l))
                          (node_id (to_node l)))
      /\ nodes t' !! node_id (from_node l) = Some fn
      /\ outputs fn !! link_identity l = links t' !! link_identity l
      /\ nodes t' !! node_id (to_node l) = Some tn
      /\ inputs tn !! link_identity l = links t' !! link_identity l
      /\ dom (nodes t') = dom (nodes t)
      /\ (forall other, other <> link_identity l ->
                        links t' !! other = links t !! other).
Proof.
  intros self t l w Ht [fn Hf]%elem_of_dom [tn Hn]%elem_of_dom.
  pose proof (LinksCollection_add_result _ _ _ _ _ _ Ht Hf Hn) as Hrun.
  simpl in Hrun.
  destruct (link_alters (node_id (from_node l)) (node_id (to_node l))
              (link_identity l)
              (mkSvLink (link_identity l) (node_id (from_node l))
                        (node_id (to_node l)))
              (nodes t) _ _ Hf) as (fn' & Hf' & _ & _ & Hout & _).
  destruct (link_alters (node_id (from_node l)) (node_id (to_node l))
              (link_identity l)
              (mkSvLink (link_identity l) (node_id (from_node l))
                        (node_id (to_node l)))
              (nodes t) _ _ Hn) as (tn' & Hn' & _ & _ & _ & Hin & _).
  eexists _, fn', tn'. split; [exact Hrun|]. simpl.
  rewrite lookup_insert_eq.
  split; [done|]. split; [exact Hf'|]. split; [by apply Hout|].
  split; [exact Hn'|]. split; [by apply Hin|].
  split; [by rewrite !dom_alter_L|].
  intros other Ho. by rewrite lookup_insert_ne.
Qed.

(** ** Total reconstruction *)

Lemma wired_after_link self t l w w1 :
  node_trees w !! self = Some t ->
  wired t ->
  LinksCollection_add self l w = (Ok tt, w1) ->
  exists t1, node_trees w1 = <[self := t1]> (node_trees w) /\ wired t1.
Proof.
  intros Ht Hwired H.
  assert (exists fn tn, nodes t !! node_id (from_node l) = Some fn
                        /\ nodes t !! node_id (to_node l) = Some tn)
    as (fn & tn & Hf & Hn).
  { unfold LinksCollection_add in H.
    rewrite (bind_ok _ _ _ _ _ (get_tree_run _ _ _ Ht)) in H.
    unfold NodesCollection_getitem in H.
    destruct (nodes t !! node_id (from_node l)) as [fn|]; [|by prim H].
    rewrite (bind_ok _ _ w fn w) in H by done.
    destruct (nodes t !! node_id (to_node l)) as [tn|]; [|by prim H].
    by exists fn, tn. }
  rewrite (LinksCollection_add_result _ _ _ _ _ _ Ht Hf Hn) in H.
  simplify_eq. eexists. split; [reflexivity|].
  set (lid := link_identity l).
  set (sl := mkSvLink lid (node_id (from_node l)) (node_id (to_node l))).
  pose proof (link_alters (node_id (from_node l)) (node_id (to_node l))
                lid sl (nodes t)) as Halt. simpl in Halt.
  intros lid' sl' Hl. simpl in Hl |- *.
  destruct (decide (lid = lid')) as [<-|Hne].
  - rewrite lookup_insert_eq in Hl. simplify_eq. simpl. split.
    + destruct (Halt _ _ Hf) as (n' & Hn' & _ & _ & Hout & _). eauto.
    + destruct (Halt _ _ Hn) as (n' & Hn' & _ & _ & _ & Hin & _). eauto.
  - rewrite lookup_insert_ne in Hl by done.
    destruct (Hwired _ _ Hl) as [(a & Ha & Hao) (b & Hb & Hbi)]. split.
    + destruct (Halt _ _ Ha) as (n' & Hn' & _ & _ & _ & _ & Hother & _).
      exists n'. split; [done|]. destruct (Hother lid') as [-> _]; done.
    + destruct (Halt _ _ Hb) as (n' & Hn' & _ & _ & _ & _ & Hother & _).
      exists n'. split; [done|]. destruct (Hother lid') as [_ ->]; done.
Qed.

Lemma wired_after_links self ls : forall t w w1,
  node_trees w !! self = Some t ->
  wired t ->
  for_each (LinksCollection_add self) ls w = (Ok tt, w1) ->
  exists t1, node_trees w1 = <[self := t1]> (node_trees w) /\ wired t1.
Proof.
  induction ls as [|l ls IH]; intros t w w1 Ht Hwired H; simpl in H.
  - prim H. exists t. split; [by rewrite insert_id | done].
  - inv_bind H as u w2 H1 H2; [|done]. destruct u.
    destruct (wired_after_link _ _ _ _ _ Ht Hwired H1) as (t2 & Hm2 & Hw2).
    destruct (IH t2 w2 w1) as (t1 & Hm & Hw1); [|done|done|].
    { rewrite Hm2. apply lookup_insert_eq. }
    exists t1. split; [|done]. rewrite Hm, Hm2. apply insert_insert_eq.
Qed.

(** X6. A total reconstruction of a tree object that holds no link (as
    a new [SvTree] does) gives, when it returns normally, a tree object in
    which every link of the link collection has both its end nodes in the
    node collection, is among the outputs of the first and among the
    inputs of the second. *)
Theorem total_reconstruction_wires_links :
  forall (self : string) (t : SvTree) (w w' : World),
    node_trees w !! self = Some t ->
    links t = ∅ ->
    total_reconstruction self w = (Ok tt, w') ->
    exists t', node_trees w' = <[self := t']> (node_trees w) /\ wired t'.
Proof.
  intros self t w w' Ht Hempty H. unfold total_reconstruction in H.
  inv_bind H as bl w1 H1 H2; [|done].
  apply keeps_get_blender_tree in H1 as Hk1.
  assert (w1 = w) as ->.
  { unfold get_blender_tree in H1.
    rewrite (bind_ok _ _ _ _ _ (get_tree_run _ _ _ Ht)) in H1.
    rewrite (bind_ok _ _ w (node_groups w) w) in H1 by done.
    destruct (search_node_groups _ _); by prim H1. }
  destruct (nodes_loop self (tree_nodes bl) t w Ht)
    as (t1 & w2 & Hrun & Hm1 & _ & Hl1 & _).
  rewrite (bind_ok _ _ _ _ _ Hrun) in H2.
  destruct (wired_after_links self (tree_links bl) t1 w2 w') as (t2 & Hm2 & Hw2);
    try done.
  - rewrite Hm1. apply lookup_insert_eq.
  - intros lid sl Hl. rewrite Hl1, Hempty in Hl. by rewrite lookup_empty in Hl.
  - exists t2. split; [|done]. rewrite Hm2, Hm1. apply insert_insert_eq.
Qed.

(** X7. A total reconstruction only adds: every node and link identity
    that the tree object held is still there afterwards, next to those of
    the live graph.  Run twice in succession on the same live graph, it
    gives the same node and link key sets the second time as the first. *)
Theorem total_reconstruction_twice :
  forall (self : string) (t : SvTree) (g : NodeTree) (w : World),
    node_trees w !! self = Some t ->
    search_node_groups (node_groups w) (tree_key t) = Some g ->
    links_join_nodes g ->
    exists t1 w1 t2 w2,
      total_reconstruction self w = (Ok tt, w1)
      /\ node_trees w1 !! self = Some t1
      /\ total_reconstruction self w1 = (Ok tt, w2)
      /\ node_trees w2 !! self = Some t2
      /\ dom (nodes t) ⊆ dom (nodes t1)
      /\ dom (links t) ⊆ dom (links t1)
      /\ list_to_set (map node_id (tree_nodes g)) ⊆ dom (nodes t1)
      /\ list_to_set (map link_identity (tree_links g)) ⊆ dom (links t1)
      /\ dom (nodes t2) = dom (nodes t1)
      /\ dom (links t2) = dom (links t1).
Proof.
  intros self t g w Ht Hs Hwf.
  destruct (total_reconstruction_run _ _ _ _ Ht Hs Hwf)
    as (t1 & w1 & Hrun1 & Hm1 & Hg1 & Hn1 & Hl1 & Hk1).
  assert (node_trees w1 !! self = Some t1) as Ht1.
  { rewrite Hm1. apply lookup_insert_eq. }
  destruct (total_reconstruction_run self t1 g w1) as
    (t2 & w2 & Hrun2 & Hm2 & Hg2 & Hn2 & Hl2 & Hk2); [done| |done|].
  { by rewrite Hg1, Hk1. }
  exists t1, w1, t2, w2. split; [done|]. split; [done|]. split; [done|].
  split; [rewrite Hm2; apply lookup_insert_eq|].
  rewrite Hn2, Hl2, Hn1, Hl1. set_solver.
Qed.

(** *** What the debug check prints *)

Lemma output_bind {A B} (c : M A) (k : A -> M B) :
  keeps_output c -> (forall a, keeps_output (k a)) -> keeps_output (bind c k).
Proof.
  intros Hc Hk w r w' H. inv_bind H as a w1 H1 H2.
  - rewrite (Hk _ _ _ _ H2). by eapply Hc.
  - by eapply Hc.
Qed.

Lemma output_for_each {A} (body : A -> M unit) xs :
  (forall x, keeps_output (body x)) -> keeps_output (for_each body xs).
Proof.
  intros Hb. induction xs as [|x xs IH]; simpl.
  - intros w r w' H. by prim H.
  - apply output_bind; [apply Hb | intros _; apply IH].
Qed.

Lemma output_get_tree self : keeps_output (get_tree self).
Proof.
  intros w r w' H. unfold get_tree in H.
  by destruct (node_trees w !! self); simplify_eq.
Qed.

Lemma output_put_tree self t : keeps_output (put_tree self t).
Proof. intros w r w' H. unfold put_tree in H. by prim H. Qed.

Lemma output_total_reconstruction self : keeps_output (total_reconstruction self).
Proof.
  unfold total_reconstruction, get_blender_tree.
  apply output_bind.
  - apply output_bind; [apply output_get_tree|]. intros t.
    apply output_bind; [intros w r w' H; by prim H|]. intros ngs.
    destruct (search_node_groups ngs (tree_key t)); intros w r w' H; by prim H.
  - intros bl. apply output_bind.
    + apply output_for_each. intros n. unfold NodesCollection_add.
      apply output_bind; [apply output_get_tree|]. intros t. apply output_put_tree.
    + intros _. apply output_for_each. intros l.
      unfold LinksCollection_add, NodesCollection_getitem.
      apply output_bind; [apply output_get_tree|]. intros t.
      apply output_bind.
      { destruct (nodes t !! _); intros w r w' H; by prim H. }
      intros fn. apply output_bind.
      { destruct (nodes t !! _); intros w r w' H; by prim H. }
      intros tn. apply output_put_tree.
Qed.

Lemma check_reconstruction_correctness_prints self t g w :
  node_trees w !! self = Some t ->
  search_node_groups (node_groups w) (tree_key t) = Some g ->
  check_reconstruction_correctness self w
  = (Ok tt,
     add_line
       (PrintText
          (if LinksCollection_eq t (list_to_set (map link_identity (tree_links g)))
              && NodesCollection_eq t (list_to_set (map node_id (tree_nodes g)))
           then "Reconstruction is correct"
           else "!!! Reconstruction does not correct !!!")) w).
Proof.
  intros Ht Hs. unfold check_reconstruction_correctness.
  rewrite (bind_ok _ _ _ _ _ (get_blender_tree_run _ _ _ _ Ht Hs)).
  rewrite (bind_ok _ _ _ _ _ (get_tree_run _ _ _ Ht)).
  unfold LinksCollection_eq, NodesCollection_eq.
  rewrite (bool_decide_ext (dom (links t) = _) (_ = dom (links t))) by done.
  rewrite (bool_decide_ext (dom (nodes t) = _) (_ = dom (nodes t))) by done.
  by destruct (_ && _).
Qed.

(** C2, where the code goes wrong. [need_total_reconstruction] is
    [bool(len(self.nodes))]: it answers true for a tree object that holds
    a node.  So reconciliation leaves a tree object without nodes as it
    is, though the live graph has nodes, and in debug mode the module's
    own check then prints that the reconstruction is not correct; and a
    tree object that holds a node is rebuilt from the live graph, every
    node and every link of it read in. *)
Theorem empty_shadow_is_not_rebuilt :
  forall (self : string) (sv_event : option (list SverchokEvent))
         (t : SvTree) (bl_tree : NodeTree) (w : World),
    node_trees w !! self = Some t ->
    search_node_groups (node_groups w) (tree_key t) = Some bl_tree ->
    (nodes t = ∅ ->
     tree_nodes bl_tree <> [] ->
     exists w',
       update_reconstruction self sv_event w = (Ok tt, w')
       /\ node_trees w' = node_trees w
       /\ printed w'
          = printed w
            ++ (if debug_mode w
                then [PrintText "!!! Reconstruction does not correct !!!"]
                else []))
    /\ (nodes t <> ∅ ->
        links_join_nodes bl_tree ->
        exists t' w',
          update_reconstruction self sv_event w = (Ok tt, w')
          /\ node_trees w' = <[self := t']> (node_trees w)
          /\ dom (nodes t')
             = dom (nodes t) ∪ list_to_set (map node_id (tree_nodes bl_tree))
          /\ dom (links t')
             = dom (links t) ∪ list_to_set (map link_identity (tree_links bl_tree))).
Proof.
  intros self sv_event t bl_tree w Ht Hs. split.
  - intros Hempty Hlive. unfold update_reconstruction.
    rewrite (bind_ok _ _ _ _ _ (need_total_reconstruction_run _ _ _ Ht)).
    rewrite Hempty, map_size_empty. simpl.
    rewrite (bind_ok _ _ w tt w) by done.
    rewrite (bind_ok _ _ w (debug_mode w) w) by done.
    destruct (debug_mode w).
    + rewrite (check_reconstruction_correctness_prints _ _ _ _ Ht Hs).
      eexists. split; [reflexivity|]. split; [done|]. simpl.
      unfold NodesCollection_eq.
      rewrite (bool_decide_eq_false_2 (dom (nodes t) = _)).
      { by rewrite andb_false_r. }
      rewrite Hempty, dom_empty_L. intros E.
      destruct (tree_nodes bl_tree) as [|n ns]; [done|].
      simpl in E. set_solver.
    + exists w. by rewrite app_nil_r.
  - intros Hfull Hwf. unfold update_reconstruction.
    rewrite (bind_ok _ _ _ _ _ (need_total_reconstruction_run _ _ _ Ht)).
    assert (Nat.eqb (size (nodes t)) 0 = false) as ->.
    { apply Nat.eqb_neq. intros E. by apply map_size_empty_iff in E. }
    simpl.
    destruct (total_reconstruction_run _ _ _ _ Ht Hs Hwf)
      as (t1 & w1 & Hrun & Hm & Hg & Hn & Hl & Hk).
    rewrite (bind_ok _ _ _ _ _ Hrun).
    rewrite (bind_ok _ _ w1 (debug_mode w1) w1) by done.
    destruct (debug_mode w1).
    + destruct (check_reconstruction_correctness_run self t1 bl_tree w1)
        as (w2 & Hrun2 & Hm2).
      { rewrite Hm. apply lookup_insert_eq. }
      { by rewrite Hg, Hk. }
      exists t1, w2. repeat split; try done. congruence.
    + by exists t1, w1.
Qed.

(** X8. After a total reconstruction of a tree object that held neither
    node nor link, the debug check finds the keys of both collections equal
    to the identities of the live graph and prints [Reconstruction is
    correct], and nothing else is printed. *)
Theorem check_after_first_reconstruction :
  forall (self : string) (t : SvTree) (g : NodeTree) (w : World),
    node_trees w !! self = Some t ->
    nodes t = ∅ -> links t = ∅ ->
    search_node_groups (node_groups w) (tree_key t) = Some g ->
    links_join_nodes g ->
    exists w',
      (total_reconstruction self ;; check_reconstruction_correctness self) w
      = (Ok tt, w')
      /\ printed w' = printed w ++ [PrintText "Reconstruction is correct"].
Proof.
  intros self t g w Ht Hn Hl Hs Hwf.
  destruct (total_reconstruction_run _ _ _ _ Ht Hs Hwf)
    as (t1 & w1 & Hrun1 & Hm1 & Hg1 & Hn1 & Hl1 & Hk1).
  rewrite (bind_ok _ _ _ _ _ Hrun1).
  rewrite (check_reconstruction_correctness_prints self t1 g w1).
  - eexists. split; [reflexivity|]. simpl.
    rewrite (output_total_reconstruction _ _ _ _ Hrun1).
    unfold LinksCollection_eq, NodesCollection_eq.
    rewrite !bool_decide_eq_true_2; [done| |].
    + rewrite Hn1, Hn. set_solver.
    + rewrite Hl1, Hl. set_solver.
  - rewrite Hm1. apply lookup_insert_eq.
  - by rewrite Hg1, Hk1.
Qed.

(** X9. Nothing removes a node from a tree object: when the object holds
    a node identity that the live graph does not have, reconciliation in
    debug mode rebuilds the object and then prints [!!! Reconstruction does
    not correct !!!]; it returns normally all the same. *)
Theorem stale_node_is_reported :
  forall (self : string) (sv_event : option (list SverchokEvent))
         (t : SvTree) (g : NodeTree) (key : string) (w : World),
    node_trees w !! self = Some t ->
    key ∈ dom (nodes t) ->
    key ∉ map node_id (tree_nodes g) ->
    search_node_groups (node_groups w) (tree_key t) = Some g ->
    links_join_nodes g ->
    debug_mode w = true ->
    exists t' w',
      update_reconstruction self sv_event w = (Ok tt, w')
      /\ node_trees w' !! self = Some t'
      /\ key ∈ dom (nodes t')
      /\ printed w'
         = printed w ++ [PrintText "!!! Reconstruction does not correct !!!"].
Proof.
  intros self sv_event t g key w Ht Hin Hout Hs Hwf Hdbg.
  unfold update_reconstruction.
  rewrite (bind_ok _ _ _ _ _ (need_total_reconstruction_run _ _ _ Ht)).
  assert (size (nodes t) <> 0) as Hsize.
  { intros E. apply map_size_empty_iff in E. rewrite E in Hin. set_solver. }
  apply Nat.eqb_neq in Hsize. rewrite Hsize. simpl.
  destruct (total_reconstruction_run _ _ _ _ Ht Hs Hwf)
    as (t1 & w1 & Hrun1 & Hm1 & Hg1 & Hn1 & Hl1 & Hk1).
  rewrite (bind_ok _ _ _ _ _ Hrun1).
  assert (debug_mode w1 = true) as Hdbg1.
  { unfold total_reconstruction in Hrun1.
    assert (keeps_control (total_reconstruction self)) as Hk
      by (unfold total_reconstruction; keeps).
    destruct (Hk _ _ _ Hrun1) as (_ & _ & _ & _ & ->). done. }
  rewrite (bind_ok _ _ w1 true w1) by (unfold is_in_debug_mode, gets; by rewrite Hdbg1).
  assert (node_trees w1 !! self = Some t1) as Ht1.
  { rewrite Hm1. apply lookup_insert_eq. }
  rewrite (check_reconstruction_correctness_prints self t1 g w1 Ht1)
    by (by rewrite Hg1, Hk1).
  exists t1. eexists. split; [reflexivity|]. simpl. split; [done|].
  split; [rewrite Hn1; set_solver|].
  rewrite (output_total_reconstruction _ _ _ _ Hrun1).
  unfold NodesCollection_eq. rewrite (bool_decide_eq_false_2 (dom (nodes t1) = _)).
  - by rewrite andb_false_r.
  - rewrite Hn1. intros E.
    assert (key ∈@{gset string} list_to_set (map node_id (tree_nodes g))) as Hk
      by (rewrite <- E; set_solver).
    by apply elem_of_list_to_set in Hk.
Qed.

(** X10. When the host no longer has the graph of a tree object,
    reconciliation raises [LookupError] as soon as it has to look at the
    graph, that is when the object holds a node or debug mode is on; with
    no node and debug mode off it returns normally.  In each case nothing
    has changed. *)
Theorem update_reconstruction_without_graph :
  forall (self : string) (sv_event : option (list SverchokEvent))
         (t : SvTree) (w : World),
    node_trees w !! self = Some t ->
    search_node_groups (node_groups w) (tree_key t) = None ->
    update_reconstruction self sv_event w
    = (if negb (Nat.eqb (NodesCollection_len t) 0) || debug_mode w
       then Raised (LookupError
              "Looks like some node tree has disappeared, or its ID has changed")
       else Ok tt, w).
Proof.
  intros self sv_event t w Ht Hs.
  assert (get_blender_tree self w
          = (Raised (LookupError
               "Looks like some node tree has disappeared, or its ID has changed"), w))
    as Hbl.
  { unfold get_blender_tree.
    rewrite (bind_ok _ _ _ _ _ (get_tree_run _ _ _ Ht)).
    rewrite (bind_ok _ _ w (node_groups w) w) by done.
    by rewrite Hs. }
  unfold update_reconstruction, NodesCollection_len.
  rewrite (bind_ok _ _ _ _ _ (need_total_reconstruction_run _ _ _ Ht)).
  destruct (negb (Nat.eqb (size (nodes t)) 0)); simpl.
  - erewrite bind_raised; [done|].
    unfold total_reconstruction. by rewrite (bind_raised _ _ _ _ _ Hbl).
  - rewrite (bind_ok _ _ w tt w) by done.
    rewrite (bind_ok _ _ w (debug_mode w) w) by done.
    destruct (debug_mode w); [|done].
    unfold check_reconstruction_correctness.
    by rewrite (bind_raised _ _ _ _ _ Hbl).
Qed.

(** ** The scheduler in every outcome *)

Section Outcomes.

Context {C : Collaborators}.

Lemma dispatch_calls_nil : dispatch_calls [].
Proof. exists [], []. repeat split; [constructor | by left]. Qed.

Lemma redraw_call_is_no_process ev :
  Forall (fun c => is_process c = false) (redraw_call ev).
Proof. unfold redraw_call. destruct (sv_update_function ev); repeat constructor. Qed.

Lemma redraw_node_calls ingest ev w r w' :
  inert ingest -> _to_listen_new_events w = false ->
  redraw_node ingest ev w = (r, w') -> calls w' = calls w ++ redraw_call ev.
Proof.
  intros Hi Hw H. unfold redraw_node, redraw_call in *.
  destruct (sv_update_function ev) as [f|].
  - inv_bind H as u w1 H1 H2; prim H1.
    by apply run_actions_inert in H2 as ->.
  - prim H. by rewrite app_nil_r.
Qed.

Lemma redraw_step_calls ingest ev w r w' :
  inert ingest -> _to_listen_new_events w = false ->
  redraw_step ingest ev w = (r, w') -> calls w' = calls w ++ redraw_call ev.
Proof.
  intros Hi Hw H. unfold redraw_step, is_in_debug_mode in H.
  inv_bind H as dbg w1 H1 H2; prim H1.
  inv_bind H2 as u w2 H2 H3.
  - assert (_to_listen_new_events w2 = false /\ calls w2 = calls w1) as [Hw2 Hc].
    { destruct (debug_mode w1); prim H2; by split. }
    rewrite <- Hc. by eapply redraw_node_calls.
  - destruct (debug_mode w1); prim H2.
Qed.

Lemma redraw_loop_calls ingest evs w r w' :
  inert ingest -> _to_listen_new_events w = false ->
  for_each (redraw_step ingest) evs w = (r, w') ->
  exists rs, calls w' = calls w ++ rs /\ Forall (fun c => is_process c = false) rs.
Proof.
  intros Hi. revert w r w'.
  induction evs as [|ev evs IH]; simpl; intros w r w' Hw H.
  - prim H. exists []. by rewrite app_nil_r.
  - inv_bind H as u w1 H1 H2.
    + destruct (redraw_step_inert _ _ _ _ _ Hi Hw H1) as ((_&Hl&_) & _).
      apply redraw_step_calls in H1; [|done..].
      destruct (IH w1 r w') as (rs & Hrs & Hall); [congruence | done |].
      exists (redraw_call ev ++ rs). rewrite Hrs, H1, app_assoc. split; [done|].
      apply Forall_app. split; [apply redraw_call_is_no_process | done].
    + apply redraw_step_calls in H1; [|done..].
      exists (redraw_call ev). split; [done | apply redraw_call_is_no_process].
Qed.

Lemma redraw_nodes_calls ingest sv_events w r w' :
  inert ingest -> _to_listen_new_events w = false ->
  redraw_nodes ingest sv_events w = (r, w') ->
  exists rs, calls w' = calls w ++ rs /\ Forall (fun c => is_process c = false) rs.
Proof.
  intros Hi Hw H. unfold redraw_nodes in H.
  change (bind (iter sv_events) (for_each (redraw_step ingest)) w = (r, w')) in H.
  inv_bind H as evs w1 H1 H2.
  - destruct sv_events as [evs'|]; prim H1. by eapply redraw_loop_calls.
  - destruct sv_events as [evs'|]; prim H1. exists []. by rewrite app_nil_r.
Qed.

Lemma update_nodes_calls ingest sv_events w r w' :
  inert ingest -> _to_listen_new_events w = false ->
  update_nodes ingest sv_events w = (r, w') ->
  calls w' = calls w \/ exists ns, calls w' = calls w ++ [Process ns].
Proof.
  intros Hi Hw H. unfold update_nodes in H.
  inv_bind H as evs w1 H1 H2.
  - destruct sv_events as [evs'|]; prim H1.
    inv_bind H2 as u w2 H2 H3; prim H2.
    apply run_actions_inert in H3 as ->; [|done..]. right. by eexists.
  - destruct sv_events as [evs'|]; prim H1. by left.
Qed.

Lemma no_call_is_a_dispatch (w w0 : World) :
  calls w0 = calls w ->
  exists cs, calls w0 = calls w ++ cs /\ dispatch_calls cs.
Proof.
  intros ->. exists []. rewrite app_nil_r. split; [done | apply dispatch_calls_nil].
Qed.

Lemma handle_new_event_calls ingest w r w' :
  inert ingest ->
  handle_new_event ingest w = (r, w') ->
  exists cs, calls w' = calls w ++ cs /\ dispatch_calls cs.
Proof.
  intros Hi H.
  destruct (is_end_total (current_wave w)) as [[|] E].
  2:{ rewrite handle_new_event_not_ended in H by done. simplify_eq. by apply no_call_is_a_dispatch. }
  unfold handle_new_event in H.
  inv_bind H as wv wa H0 H; prim H0.
  inv_bind H as ended wb H0 H; unfold lift_result in H0; rewrite E in H0;
    simplify_eq.
  simpl in H.
  inv_bind H as u wc H0 H; prim H0.
  inv_bind H as wv' wd H0 H; prim H0. simpl in H.
  inv_bind H as sv_events w1 H1 H.
  2:{ apply keeps_convert_to_sverchok_events in H1 as (_&_&Hc&_). by apply no_call_is_a_dispatch. }
  pose proof (keeps_convert_to_sverchok_events _ _ _ _ H1) as (W1&L1&C1&_).
  simpl in W1, L1, C1.
  inv_bind H as tr w2 H2 H.
  2:{ apply keeps_tree_reconstruction in H2 as (_&_&Hc&_).
      apply no_call_is_a_dispatch. congruence. }
  pose proof (keeps_tree_reconstruction _ _ _ H2) as (W2&L2&C2&_).
  inv_bind H as self w3 H3 H.
  2:{ destruct tr; prim H3. apply no_call_is_a_dispatch. congruence. }
  destruct tr as [self'|]; prim H3.
  inv_bind H as u w4 H4 H.
  2:{ apply keeps_update_reconstruction in H4 as (_&_&Hc&_).
      apply no_call_is_a_dispatch. congruence. }
  pose proof (keeps_update_reconstruction _ _ _ _ _ H4) as (W4&L4&C4&_).
  assert (_to_listen_new_events w4 = false) as F4 by congruence.
  match goal with
  | |- exists cs, _ = calls ?x ++ cs /\ _ =>
      assert (calls w4 = calls x) as C4' by congruence
  end.
  inv_bind H as u5 w5 H5 H.
  2:{ apply redraw_nodes_calls in H5 as (rs & Hrs & Hall); [|done..].
      exists rs. rewrite Hrs, C4'. split; [done|].
      exists rs, []. rewrite app_nil_r. repeat split; [done | by left]. }
  pose proof (redraw_nodes_inert _ _ _ _ _ Hi F4 H5) as ((_&L5&_)&_).
  apply redraw_nodes_calls in H5 as (rs & Hrs & Hall); [|done..].
  assert (_to_listen_new_events w5 = false) as F5 by congruence.
  assert (exists w6, calls w' = calls w6
                     /\ (calls w6 = calls w5
                         \/ exists ns, calls w6 = calls w5 ++ [Process ns]))
    as (w6 & Hlast & Hps).
  { inv_bind H as u6 w6 H6 H.
    - apply update_nodes_calls in H6; [|done..].
      inv_bind H as u7 w7 H7 H; prim H7. prim H. by exists w6.
    - apply update_nodes_calls in H6; [|done..]. by exists w'. }
  rewrite Hlast. destruct Hps as [Hps|(ns & Hps)]; rewrite Hps, Hrs, C4'.
  - exists rs. split; [done|]. exists rs, []. rewrite app_nil_r.
    repeat split; [done | by left].
  - exists (rs ++ [Process ns]). rewrite app_assoc. split; [done|].
    exists rs, [Process ns]. repeat split; [done|]. right. by eexists.
Qed.

(** X11. Whatever [add_new_event] does with an event and however it ends,
    normally or with an exception of any callee, the calls it has made
    are redraws followed by at most one call of [process_from_nodes]: the
    engine is never called twice for one event, and never before a
    redraw. *)
Theorem at_most_one_process_per_event :
  forall (depth : nat) (bl_event : BlenderEvent) (w : World)
         (r : Result unit) (w' : World),
    add_new_event depth bl_event w = (r, w') ->
    exists cs,
      calls w' = calls w ++ cs
      /\ dispatch_calls cs
      /\ processes (calls w') <= S (processes (calls w)).
Proof.
  intros depth ev w r w' H.
  assert (exists cs, calls w' = calls w ++ cs /\ dispatch_calls cs)
    as (cs & Hcs & Hd).
  { destruct (_to_listen_new_events w) eqn:Hw.
    - rewrite add_new_event_listening in H by done.
      destruct (handle_new_event_calls _ _ _ _ (nested_inert depth) H)
        as (cs & Hcs & Hd).
      exists cs. split; [|done].
      by destruct (arrive_fields ev w) as (_&<-&_).
    - rewrite add_new_event_suppressed in H by done. simplify_eq.
      exists []. rewrite app_nil_r. split; [done | apply dispatch_calls_nil]. }
  exists cs. split; [done|]. split; [done|].
  destruct Hd as (rs & ps & -> & Hall & Hps).
  rewrite Hcs, !processes_app.
  assert (processes rs = 0) as ->.
  { unfold processes. clear -Hall.
    induction Hall as [|c rs Hc Hall IH]; [done|]. simpl. by rewrite Hc. }
  destruct Hps as [->|(ns & ->)]; unfold processes; simpl; lia.
Qed.

(** X12. The scheduler's invariant, that a listening scheduler holds a
    wave that has not ended, survives the ingestion of any events in any
    outcome; and as long as no exception escapes, a listening scheduler
    is still listening afterwards. *)
Theorem ingest_keeps_consistent :
  forall (depth : nat) (evs : list BlenderEvent) (w : World)
         (r : Result unit) (w' : World),
    consistent w ->
    ingest_all depth evs w = (r, w') ->
    consistent w'
    /\ (r = Ok tt ->
        _to_listen_new_events w' = _to_listen_new_events w).
Proof.
  intros depth evs. unfold ingest_all.
  induction evs as [|ev evs IH]; simpl; intros w r w' Hc H.
  - by prim H.
  - inv_bind H as u w1 H1 H2.
    + pose proof (add_new_event_consistent _ _ _ _ _ Hc H1) as Hc1.
      destruct (IH _ _ _ Hc1 H2) as [Hc' Hl]. split; [done|].
      intros Hr. rewrite Hl by done.
      destruct (_to_listen_new_events w) eqn:Hw.
      * destruct (add_new_event_cases _ _ _ _ _ Hw H1) as [(E&_&->)|(E&H')].
        { by destruct (arrive_fields ev w) as (->&_). }
        destruct (arrive_fields ev w) as (_&_&_&_&_&Hwave).
        rewrite <- Hwave in E.
        destruct (handle_new_event_ended _ _ _ _ (nested_inert depth) E H')
          as [_ Ho].
        destruct u. destruct Ho as (? & ? & _ & _ & _ & Hup); [done|]. exact Hup.
      * rewrite add_new_event_suppressed in H1 by done. by simplify_eq.
    + split; [|by subst r]. by eapply add_new_event_consistent.
Qed.

(** X13. Events of kinds that do not end a wave are collected in the
    order of their arrival, those of kind [node_update] left out; nothing
    else happens to the wave. *)
Theorem wave_collects_in_order :
  forall (depth : nat) (evs : list BlenderEvent) (w : World),
    _to_listen_new_events w = true ->
    is_end (current_wave w) = Ok false ->
    Forall (fun ev => terminator (type ev) = false) evs ->
    exists w',
      ingest_all depth evs w = (Ok tt, w')
      /\ events_wave (current_wave w')
         = events_wave (current_wave w)
           ++ List.filter
                (fun ev => negb (BlenderEventsTypes.eqb (type ev)
                                   BlenderEventsTypes.node_update)) evs
      /\ length (events_wave (current_wave w'))
         <= length (events_wave (current_wave w)) + length evs.
Proof.
  intros depth evs w Hw E Hall.
  destruct (ingest_non_terminators depth evs w Hw E Hall)
    as (w1 & Hrun & _ & _ & _ & _ & Hev).
  exists w1. split; [done|]. split; [done|].
  rewrite Hev, length_app.
  pose proof (List.filter_length_le (fun ev => negb (BlenderEventsTypes.eqb (type ev)
                 BlenderEventsTypes.node_update)) evs).
  lia.
Qed.

End Outcomes.

(** ** Tree objects that never get a node *)

Lemma store_pure (P : gmap string SvTree -> Prop) {A} (c : M A) :
  (forall w, snd (c w) = w) -> keeps_store P c.
Proof. intros H w r w' HP Hc. specialize (H w). rewrite Hc in H. simpl in H. by subst. Qed.

Lemma store_bind P {A B} (c : M A) (k : A -> M B) :
  keeps_store P c -> (forall a, keeps_store P (k a)) -> keeps_store P (bind c k).
Proof.
  intros Hc Hk w r w' HP H. inv_bind H as a w1 H1 H2.
  - eapply Hk; [|exact H2]. by eapply Hc.
  - by eapply Hc.
Qed.

Lemma store_lift P {A} (c : StoreM A) :
  (forall m r m', P m -> c m = (r, m') -> P m') -> keeps_store P (lift_store c).
Proof.
  intros H w r w' HP Hc. unfold lift_store in Hc.
  destruct (c (node_trees w)) as [r1 m'] eqn:E. simplify_eq. simpl. eauto.
Qed.

Lemma store_ret P {A} (a : A) : keeps_store P (ret a).
Proof. by apply store_pure. Qed.

Lemma store_raise P {A} e : keeps_store P (@raise A e).
Proof. by apply store_pure. Qed.

Lemma store_gets P {A} (f : World -> A) : keeps_store P (gets f).
Proof. by apply store_pure. Qed.

Lemma store_lift_result P {A} (x : Result A) : keeps_store P (lift_result x).
Proof. by apply store_pure. Qed.

Lemma store_attr P {A} (o : option A) s : keeps_store P (attr o s).
Proof. apply store_pure. intros w. by destruct o. Qed.

Lemma store_get_tree P self : keeps_store P (get_tree self).
Proof.
  apply store_pure. intros w. unfold get_tree. by destruct (node_trees w !! self).
Qed.

Lemma store_if P {A} (b : bool) (c1 c2 : M A) :
  keeps_store P c1 -> keeps_store P c2 -> keeps_store P (if b then c1 else c2).
Proof. by destruct b. Qed.

Create HintDb stores.
#[local] Hint Resolve store_ret store_raise store_gets store_lift_result
  store_attr store_get_tree : stores.

Ltac stores :=
  repeat first
    [ progress eauto with stores
    | apply store_bind; [ | intros ? ]
    | apply store_if ].

Lemma update_reconstruction_keeps_no_nodes self evs :
  keeps_store no_nodes (update_reconstruction self evs).
Proof.
  intros w r w' HP H. unfold update_reconstruction in H.
  destruct (node_trees w !! self) as [t|] eqn:Et.
  - rewrite (bind_ok _ _ _ _ _ (need_total_reconstruction_run _ _ _ Et)) in H.
    rewrite (HP _ _ Et), map_size_empty in H. simpl in H.
    rewrite (bind_ok _ _ w tt w) in H by done.
    rewrite (bind_ok _ _ w (debug_mode w) w) in H by done.
    destruct (debug_mode w).
    + by rewrite (check_reconstruction_correctness_store _ _ _ _ H).
    + by prim H.
  - assert (need_total_reconstruction self w
            = (Raised (AttributeError "NoneType"), w)) as Hneed.
    { unfold need_total_reconstruction, bind, get_tree. by rewrite Et. }
    rewrite (bind_raised _ _ _ _ _ Hneed) in H. by simplify_eq.
Qed.

Section EmptyShadows.

Context {C : Collaborators}.

Hypothesis lookup_keeps :
  forall o, keeps_no_nodes (get_node_tree_reconstruction o).
Hypothesis known_keeps :
  forall wv, keeps_no_nodes (convert_known_events wv).

Lemma previous_tree_keeps_no_nodes wv : keeps_store no_nodes (previous_tree wv).
Proof.
  unfold previous_tree. stores. apply store_lift.
  intros m r m' Hm H. by eapply lookup_keeps.
Qed.

Lemma convert_keeps_no_nodes wv :
  keeps_store no_nodes (convert_to_sverchok_events wv).
Proof.
  pose proof previous_tree_keeps_no_nodes as Hprev.
  unfold convert_to_sverchok_events, analyze_changes, links_difference,
    nodes_difference, current_tree.
  stores. apply store_lift. intros m r m' Hm H. by eapply known_keeps.
Qed.

Lemma handle_new_event_keeps_no_nodes ingest :
  inert ingest -> keeps_store no_nodes (handle_new_event ingest).
Proof.
  intros Hi w r w' HP H.
  destruct (is_end_total (current_wave w)) as [[|] E].
  2:{ rewrite handle_new_event_not_ended in H by done. by simplify_eq. }
  unfold handle_new_event in H.
  inv_bind H as wv wa H0 H; prim H0.
  inv_bind H as ended wb H0 H; unfold lift_result in H0; rewrite E in H0;
    simplify_eq.
  simpl in H.
  inv_bind H as u wc H0 H; prim H0.
  inv_bind H as wv' wd H0 H; prim H0. simpl in H.
  inv_bind H as sv_events w1 H1 H.
  2:{ eapply convert_keeps_no_nodes; [|exact H1]. exact HP. }
  pose proof (keeps_convert_to_sverchok_events _ _ _ _ H1) as (_&L1&_).
  apply convert_keeps_no_nodes in H1; [|done]. simpl in L1.
  inv_bind H as tr w2 H2 H.
  2:{ unfold tree_reconstruction in H2. inv_bind H2 as cw wcw Hcw H2; prim Hcw.
      eapply previous_tree_keeps_no_nodes; [|exact H2]. exact H1. }
  pose proof (keeps_tree_reconstruction _ _ _ H2) as (_&L2&_).
  assert (no_nodes (node_trees w2)) as P2.
  { unfold tree_reconstruction in H2. inv_bind H2 as cw wcw Hcw H2; prim Hcw.
    eapply previous_tree_keeps_no_nodes; [|exact H2]. exact H1. }
  inv_bind H as self w3 H3 H.
  2:{ by destruct tr; prim H3. }
  destruct tr as [self'|]; prim H3.
  inv_bind H as u w4 H4 H.
  2:{ eapply update_reconstruction_keeps_no_nodes; [|exact H4]. exact P2. }
  pose proof (keeps_update_reconstruction _ _ _ _ _ H4) as (_&L4&_).
  apply update_reconstruction_keeps_no_nodes in H4; [|done].
  assert (_to_listen_new_events w4 = false) as F4 by congruence.
  inv_bind H as u5 w5 H5 H.
  2:{ apply redraw_nodes_inert in H5 as ((_&_&->&_)&_); [exact H4|exact Hi|exact F4]. }
  apply redraw_nodes_inert in H5 as ((_&L5&T5&_)&_); [|done..].
  assert (_to_listen_new_events w5 = false) as F5 by congruence.
  inv_bind H as u6 w6 H6 H.
  2:{ apply update_nodes_inert in H6 as ((_&_&->&_)&_); [|done..]. by rewrite T5. }
  apply update_nodes_inert in H6 as ((_&_&T6&_)&_); [|done..].
  inv_bind H as u7 w7 H7 H; prim H7. prim H. simpl. by rewrite T6, T5.
Qed.

Lemma add_new_event_keeps_no_nodes depth ev :
  keeps_store no_nodes (add_new_event depth ev).
Proof.
  intros w r w' HP H. destruct (_to_listen_new_events w) eqn:Hw.
  - rewrite add_new_event_listening in H by done.
    eapply (handle_new_event_keeps_no_nodes _ (nested_inert depth)); [|exact H].
    by destruct (arrive_fields ev w) as (_&_&->&_).
  - rewrite add_new_event_suppressed in H by done. by simplify_eq.
Qed.

(** X14. The reconciliation of [handle_new_event] rebuilds a tree object
    only if it already holds a node.  So, with any registry and any
    classification that do not put nodes into tree objects themselves, tree
    objects without nodes stay without nodes whatever events arrive and
    however their ingestion ends. *)
Theorem shadows_stay_without_nodes :
  forall (depth : nat) (evs : list BlenderEvent) (w : World)
         (r : Result unit) (w' : World),
    no_nodes (node_trees w) ->
    ingest_all depth evs w = (r, w') ->
    no_nodes (node_trees w').
Proof.
  intros depth evs. unfold ingest_all.
  induction evs as [|ev evs IH]; simpl; intros w r w' HP H.
  - by prim H.
  - inv_bind H as u w1 H1 H2.
    + eapply IH; [|exact H2]. by eapply add_new_event_keeps_no_nodes.
    + by eapply add_new_event_keeps_no_nodes.
Qed.

End EmptyShadows.

(** ** Property updates *)

Lemma redraw_calls_snoc evs ev :
  redraw_calls (evs ++ [ev]) = redraw_calls evs ++ redraw_call ev.
Proof. unfold redraw_calls. rewrite flat_map_app. simpl. by rewrite app_nil_r. Qed.

Lemma nodes_to_process_snoc evs ev :
  sv_type ev <> SverchokEventsTypes.free_node ->
  nodes_to_process (evs ++ [ev]) = nodes_to_process evs ++ [sv_node ev].
Proof.
  intros Hk. unfold nodes_to_process. rewrite List.filter_app, map_app. simpl.
  unfold SverchokEventsTypes.eqb. by rewrite bool_decide_eq_false_2.
Qed.

Section PropertyUpdates.

Context {C : Collaborators}.

(** X15. The function that [property_update] returns, called by the host
    while the scheduler listens, never leaves its event waiting: the event
    ends the wave and the dispatch starts at once.  If the call returns
    normally, the events that were waiting have been redrawn in their
    order, then [call_function], if there is one, has been called with the
    node and the context, then [process_from_nodes] has been called once
    with the nodes of the waiting events followed by this node; the wave is
    new and the scheduler listens.  If it raises, the scheduler no longer
    listens and the wave holds the waiting events followed by this one. *)
Theorem property_update_starts_a_dispatch :
  forall (name : string) (f : option Callable) (depth : nat)
         (node : PropertyOwner) (w : World) (r : Result unit) (w' : World),
    _to_listen_new_events w = true ->
    handel_update_call (property_update name f) depth node w = (r, w') ->
    let bl_event :=
      mkBlenderEvent BlenderEventsTypes.node_property_update
                     (Some (id_data node)) (Some (owner node)) None f
                     [PyNode (owner node); PyContext] in
    let waiting := map convert_to_sverchok_event (events_wave (current_wave w)) in
    (r = Ok tt ->
     calls w'
     = calls w ++ redraw_calls waiting
       ++ match f with
          | Some g => [Redraw g [PyNode (owner node); PyContext]]
          | None => []
          end
       ++ [Process (nodes_to_process waiting ++ [Some (owner node)])]
     /\ current_wave w' = EventsWave_init
     /\ _to_listen_new_events w' = true)
    /\ (forall e, r = Raised e ->
        _to_listen_new_events w' = false
        /\ events_wave (current_wave w')
           = events_wave (current_wave w) ++ [bl_event]).
Proof.
  intros name f depth nd w r w' Hw H bl_event waiting.
  unfold handel_update_call, property_update in H. simpl in H.
  fold bl_event in H.
  assert (type bl_event <> BlenderEventsTypes.node_update) as Hnu by done.
  destruct (arrive_fields bl_event w) as (_&_&_&_&_&Hwave).
  pose proof (add_event_other (current_wave w) bl_event Hnu) as Hadd.
  assert (is_end (current_wave (arrive bl_event w)) = Ok true) as E.
  { by rewrite Hwave, is_end_add_event. }
  destruct (add_new_event_cases _ _ _ _ _ Hw H) as [(E'&_)|(_&H')].
  { rewrite <- Hwave in E'. congruence. }
  destruct (handle_new_event_ended _ _ _ _ (nested_inert depth) E H')
    as [Hr Ho].
  split.
  - intros Hok. destruct (Ho Hok) as (evs & w1 & Hconv & Hcalls & Hnew & Hup).
    split; [|done].
    rewrite convert_by_table in Hconv.
    + rewrite Hwave, Hadd in Hconv. simplify_eq. rewrite Hcalls.
      destruct (arrive_fields bl_event w) as (_&->&_).
      rewrite map_app.
      change (map convert_to_sverchok_event [bl_event])
        with [convert_to_sverchok_event bl_event].
      rewrite redraw_calls_snoc, nodes_to_process_snoc by done.
      fold waiting. unfold redraw_call. simpl. by rewrite <- !app_assoc.
    + done.
    + intros l ev. rewrite Hwave, Hadd. by intros [_ <-]%app_inj_tail.
  - intros e He. destruct (Hr e He) as [Hdown Hsame]. split; [done|].
    by rewrite Hsame, Hwave.
Qed.

End PropertyUpdates.

(** ** Identifiers *)

Lemma pretty_N_go_is_not_empty (x : N) :
  forall s, s <> "" -> pretty_N_go x s <> "".
Proof.
  induction (N.lt_wf_0 x) as [x _ IH]. intros s Hs.
  destruct (decide (0 < x)%N) as [Hx|Hx].
  - rewrite pretty_N_go_step by done. apply IH; [|done].
    apply N.div_lt; lia.
  - assert (x = 0%N) as -> by lia. by rewrite pretty_N_go_0.
Qed.

Lemma pretty_Z_is_not_empty (z : Z) : pretty z <> "".
Proof.
  destruct z as [|p|p]; [done|..].
  - change (pretty (Z.pos p)) with (pretty_N_go (N.pos p) "").
    rewrite pretty_N_go_step by lia. by apply pretty_N_go_is_not_empty.
  - done.
Qed.

Lemma reroute_node_id_known self clock :
  n_id self <> "" -> reroute_node_id self clock = (n_id self, self).
Proof.
  intros E. unfold reroute_node_id.
  by destruct (String.eqb_spec (n_id self) "").
Qed.

Lemma reroute_node_id_first self clock :
  fst (reroute_node_id self clock) <> ""
  /\ n_id (snd (reroute_node_id self clock)) = fst (reroute_node_id self clock)
  /\ hash_self (snd (reroute_node_id self clock)) = hash_self self.
Proof.
  unfold reroute_node_id.
  destruct (String.eqb_spec (n_id self) "") as [E|E]; simpl; [|done].
  split; [apply pretty_Z_is_not_empty | done].
Qed.

(** X16. A reroute gets its identifier at the first read and keeps it:
    the first read of [node_id] on a reroute without identifier stores a
    non-empty string in [n_id]; every later read returns that string and
    changes nothing, whatever the clock says then.  A reroute that has an
    identifier is never given another. *)
Theorem reroute_id_is_fixed_at_first_read :
  forall (self : NodeReroute) (clock1 clock2 : Z),
    let first := reroute_node_id self clock1 in
    let second := reroute_node_id (snd first) clock2 in
    fst first <> ""
    /\ n_id (snd first) = fst first
    /\ hash_self (snd first) = hash_self self
    /\ second = first
    /\ (n_id self <> "" -> first = (n_id self, self))
    /\ (n_id self = ""
        -> fst first = pretty (Z.lxor (hash_self self) clock1)).
Proof.
  intros self clock1 clock2 first second.
  destruct (reroute_node_id_first self clock1) as (Hne & Hid & Hh).
  fold first in Hne, Hid, Hh.
  split; [done|]. split; [done|]. split; [done|]. split.
  - subst second. rewrite reroute_node_id_known by (by rewrite Hid).
    rewrite Hid. by destruct first.
  - split.
    + intros E. by apply reroute_node_id_known.
    + intros E. subst first. unfold reroute_node_id. by rewrite E.
Qed.

(** X17. The identifier of a socket is stable: a second read of
    [socket_id] gives the string of the first and changes nothing,
    whatever the clock says, because the first read has fixed the
    identifier of the socket's node.  The string is never empty, and it
    depends on the clock only while the node has no identifier. *)
Theorem socket_id_is_stable :
  forall (hash_str : string -> Z) (self : NodeSocketColor) (clock1 clock2 : Z),
    let first := color_socket_id hash_str self clock1 in
    let second := color_socket_id hash_str (snd first) clock2 in
    second = first
    /\ identifier (snd first) = identifier self
    /\ fst first <> ""
    /\ (n_id (socket_node self) <> ""
        -> color_socket_id hash_str self clock2 = first /\ snd first = self).
Proof.
  intros hash_str self clock1 clock2 first second.
  destruct (reroute_node_id_first (socket_node self) clock1) as (Hne & Hid & _).
  subst second first. unfold color_socket_id.
  destruct (reroute_node_id (socket_node self) clock1) as [nid n'] eqn:E1.
  simpl in *.
  rewrite reroute_node_id_known by (by rewrite Hid). rewrite Hid.
  split; [done|]. split; [done|]. split; [apply pretty_Z_is_not_empty|].
  intros Hknown. rewrite reroute_node_id_known in E1 by done. simplify_eq.
  rewrite reroute_node_id_known by done. split; [done|]. by destruct self.
Qed.

(** ** Subscript assignment *)

(** X18. [NodesCollection.__setitem__] followed by a subscript with the
    same key gives the value that was stored; the other keys and the links
    are as before; and of two assignments to one key the second is the one
    that counts.  On a tree object that does not exist, [AttributeError] is
    raised and nothing changes. *)
Theorem setitem_then_getitem :
  forall (self key : string) (v1 v2 : SvNode) (w : World),
    match node_trees w !! self with
    | Some t =>
        exists t' w',
          NodesCollection_setitem self key v2 w = (Ok tt, w')
          /\ node_trees w' = <[self := t']> (node_trees w)
          /\ NodesCollection_getitem t' key w' = (Ok v2, w')
          /\ (forall other, other <> key -> nodes t' !! other = nodes t !! other)
          /\ links t' = links t
          /\ tree_key t' = tree_key t
          /\ (NodesCollection_setitem self key v1 ;;
              NodesCollection_setitem self key v2) w = (Ok tt, w')
    | None =>
        NodesCollection_setitem self key v2 w
        = (Raised (AttributeError "NoneType"), w)
    end.
Proof.
  intros self key v1 v2 w.
  destruct (node_trees w !! self) as [t|] eqn:Et.
  - assert (forall v w0 t0, node_trees w0 !! self = Some t0 ->
              NodesCollection_setitem self key v w0
              = (Ok tt, set_node_trees
                          (<[self := set_nodes t0 (<[key := v]> (nodes t0))]>
                             (node_trees w0)) w0)) as Hrun.
    { intros v w0 t0 H0. unfold NodesCollection_setitem.
      by rewrite (bind_ok _ _ _ _ _ (get_tree_run _ _ _ H0)). }
    eexists _, _. split; [by apply Hrun|]. simpl.
    split; [done|]. split.
    { unfold NodesCollection_getitem. simpl. by rewrite lookup_insert_eq. }
    split; [intros other Ho; simpl; by rewrite lookup_insert_ne|].
    split; [done|]. split; [done|].
    rewrite (bind_ok _ _ _ _ _ (Hrun v1 w t Et)).
    erewrite Hrun by (simpl; apply lookup_insert_eq).
    simpl. by rewrite insert_insert_eq, insert_insert_eq.
  - unfold NodesCollection_setitem, bind, get_tree. by rewrite Et.
Qed.

(** ** What is printed *)

Lemma output_pure {A} (c : M A) : (forall w, snd (c w) = w) -> keeps_output c.
Proof. intros H w r w' Hc. specialize (H w). rewrite Hc in H. simpl in H. by subst. Qed.

Lemma output_lift_store {A} (c : StoreM A) : keeps_output (lift_store c).
Proof.
  intros w r w' H. unfold lift_store in H.
  destruct (c (node_trees w)) as [r1 m']. by simplify_eq.
Qed.

Lemma output_attr {A} (o : option A) s : keeps_output (attr o s).
Proof. apply output_pure. intros w. by destruct o. Qed.

Lemma output_if {A} (b : bool) (c1 c2 : M A) :
  keeps_output c1 -> keeps_output c2 -> keeps_output (if b then c1 else c2).
Proof. by destruct b. Qed.

Lemma quiet_bind {A B} (c : M A) (k : A -> M B) :
  quiet c -> (forall a, quiet (k a)) -> quiet (bind c k).
Proof.
  intros Hc Hk w r w' Hd H. inv_bind H as a w1 H1 H2.
  - destruct (Hc _ _ _ Hd H1) as [P1 D1].
    destruct (Hk _ _ _ _ D1 H2) as [P2 D2]. split; congruence.
  - by eapply Hc.
Qed.

Lemma quiet_output {A} (c : M A) : keeps_output c -> keeps_control c -> quiet c.
Proof.
  intros Ho Hk w r w' Hd H. split; [by eapply Ho|].
  destruct (Hk _ _ _ H) as (_&_&_&_&->). done.
Qed.

Lemma quiet_for_each {A} (body : A -> M unit) xs :
  (forall x, quiet (body x)) -> quiet (for_each body xs).
Proof.
  intros Hb. induction xs as [|x xs IH]; simpl.
  - intros w r w' Hd H. by prim H.
  - apply quiet_bind; [apply Hb | intros _; apply IH].
Qed.

Lemma quiet_when_debugging {A} (c1 c2 : M A) :
  quiet c2 -> quiet (dbg <- is_in_debug_mode ;; if dbg then c1 else c2).
Proof.
  intros H2 w r w' Hd H. unfold is_in_debug_mode in H.
  rewrite (bind_ok _ _ w false w) in H by (unfold gets; by rewrite Hd).
  by eapply H2.
Qed.

Lemma quiet_update_reconstruction self evs : quiet (update_reconstruction self evs).
Proof.
  unfold update_reconstruction. apply quiet_bind.
  { apply quiet_output; [|unfold need_total_reconstruction; keeps].
    unfold need_total_reconstruction.
    apply output_bind; [apply output_get_tree | intros t; by apply output_pure]. }
  intros need. apply quiet_bind.
  { destruct need.
    - apply quiet_output; [apply output_total_reconstruction|].
      unfold total_reconstruction. keeps.
    - apply quiet_output; [by apply output_pure | apply keeps_ret]. }
  intros _. apply quiet_when_debugging.
  apply quiet_output; [by apply output_pure | apply keeps_ret].
Qed.

Section Quiet.

Context {C : Collaborators}.

Lemma output_previous_tree wv : keeps_output (previous_tree wv).
Proof.
  unfold previous_tree. apply output_bind; [by apply output_pure|].
  intros ev0. apply output_lift_store.
Qed.

Lemma output_convert wv : keeps_output (convert_to_sverchok_events wv).
Proof.
  pose proof output_previous_tree as Hprev.
  assert (forall wv, keeps_output (links_difference wv)) as Hl.
  { intros wv0. unfold links_difference, current_tree.
    repeat first [ apply Hprev | apply output_bind; [|intros ?] | apply output_attr
                 | apply output_get_tree | by apply output_pure ]. }
  assert (forall wv, keeps_output (nodes_difference wv)) as Hn.
  { intros wv0. unfold nodes_difference, current_tree.
    repeat first [ apply Hprev | apply output_bind; [|intros ?] | apply output_attr
                 | apply output_get_tree | by apply output_pure ]. }
  unfold convert_to_sverchok_events, analyze_changes.
  repeat first [ apply Hl | apply Hn | apply output_bind; [|intros ?]
               | apply output_if | apply output_lift_store
               | by apply output_pure ].
Qed.

Lemma quiet_redraw_step ingest ev w r w' :
  inert ingest -> _to_listen_new_events w = false -> debug_mode w = false ->
  redraw_step ingest ev w = (r, w') -> printed w' = printed w.
Proof.
  intros Hi Hw Hd H. unfold redraw_step, is_in_debug_mode in H.
  rewrite (bind_ok _ _ w false w) in H by (unfold gets; by rewrite Hd).
  rewrite (bind_ok _ _ w tt w) in H by done.
  unfold redraw_node in H. destruct (sv_update_function ev) as [f|].
  - inv_bind H as u w1 H1 H2; prim H1.
    by apply run_actions_inert in H2 as ->.
  - by prim H.
Qed.

Lemma quiet_redraw_loop ingest evs w r w' :
  inert ingest -> _to_listen_new_events w = false -> debug_mode w = false ->
  for_each (redraw_step ingest) evs w = (r, w') -> printed w' = printed w.
Proof.
  intros Hi. revert w r w'.
  induction evs as [|ev evs IH]; simpl; intros w r w' Hw Hd H.
  - by prim H.
  - inv_bind H as u w1 H1 H2.
    + destruct (redraw_step_inert _ _ _ _ _ Hi Hw H1) as ((_&L1&_&_&D1) & _).
      apply quiet_redraw_step in H1; [|done..].
      rewrite <- H1. apply (IH _ _ _) in H2; [done|congruence..].
    + by apply quiet_redraw_step in H1.
Qed.

Lemma output_update_nodes ingest sv_events w r w' :
  inert ingest -> _to_listen_new_events w = false ->
  update_nodes ingest sv_events w = (r, w') -> printed w' = printed w.
Proof.
  intros Hi Hw H. unfold update_nodes in H.
  inv_bind H as evs w1 H1 H2.
  - destruct sv_events as [evs'|]; prim H1.
    inv_bind H2 as u w2 H2 H3; prim H2.
    by apply run_actions_inert in H3 as ->.
  - by destruct sv_events as [evs'|]; prim H1.
Qed.

Lemma quiet_redraw_nodes ingest sv_events w r w' :
  inert ingest -> _to_listen_new_events w = false -> debug_mode w = false ->
  redraw_nodes ingest sv_events w = (r, w') -> printed w' = printed w.
Proof.
  intros Hi Hw Hd H. unfold redraw_nodes in H.
  change (bind (iter sv_events) (for_each (redraw_step ingest)) w = (r, w')) in H.
  inv_bind H as evs w1 H1 H2.
  - destruct sv_events as [evs'|]; prim H1. by eapply quiet_redraw_loop.
  - by destruct sv_events as [evs'|]; prim H1.
Qed.

Lemma quiet_handle_new_event ingest : inert ingest -> quiet (handle_new_event ingest).
Proof.
  intros Hi w r w' Hd H.
  destruct (is_end_total (current_wave w)) as [[|] E].
  2:{ rewrite handle_new_event_not_ended in H by done. by simplify_eq. }
  unfold handle_new_event in H.
  rewrite (bind_ok _ _ w (current_wave w) w) in H by done.
  rewrite (bind_ok _ _ w true w) in H by (unfold lift_result; by rewrite E).
  simpl in H.
  rewrite (bind_ok _ _ w tt (set_to_listen false w)) in H by done.
  set (wl := set_to_listen false w) in *.
  rewrite (bind_ok _ _ wl (current_wave w) wl) in H by done.
  assert (printed wl = printed w /\ debug_mode wl = false
          /\ _to_listen_new_events wl = false) as (P0 & D0 & L0) by done.
  clearbody wl.
  (* classification *)
  inv_bind H as sv_events w1 H1 H.
  2:{ pose proof (output_convert _ _ _ _ H1).
      destruct (keeps_convert_to_sverchok_events _ _ _ _ H1) as (_&_&_&_&?).
      split; congruence. }
  pose proof (output_convert _ _ _ _ H1) as P1.
  destruct (keeps_convert_to_sverchok_events _ _ _ _ H1) as (_&L1&_&_&D1).
  (* the tree to reconcile *)
  assert (forall r2 w2, tree_reconstruction w1 = (r2, w2) ->
                        printed w2 = printed w1) as Htr.
  { intros r2 w2 H2. unfold tree_reconstruction in H2.
    rewrite (bind_ok _ _ w1 (current_wave w1) w1) in H2 by done.
    by eapply output_previous_tree. }
  inv_bind H as tr w2 H2 H.
  2:{ pose proof (Htr _ _ H2).
      destruct (keeps_tree_reconstruction _ _ _ H2) as (_&_&_&_&?).
      split; congruence. }
  pose proof (Htr _ _ H2) as P2.
  destruct (keeps_tree_reconstruction _ _ _ H2) as (_&L2&_&_&D2).
  inv_bind H as self w3 H3 H.
  2:{ destruct tr; prim H3. split; congruence. }
  destruct tr as [self'|]; prim H3.
  (* reconciliation *)
  assert (debug_mode w3 = false) as D3 by congruence.
  inv_bind H as u4 w4 H4 H.
  2:{ destruct (quiet_update_reconstruction _ _ _ _ _ D3 H4). split; congruence. }
  destruct (quiet_update_reconstruction _ _ _ _ _ D3 H4) as [P4 D4].
  destruct (keeps_update_reconstruction _ _ _ _ _ H4) as (_&L4&_).
  assert (_to_listen_new_events w4 = false) as F4 by congruence.
  (* redraw *)
  inv_bind H as u5 w5 H5 H.
  2:{ destruct (redraw_nodes_inert _ _ _ _ _ Hi F4 H5) as ((_&_&_&_&?)&_).
      apply quiet_redraw_nodes in H5; [|done..]. split; congruence. }
  destruct (redraw_nodes_inert _ _ _ _ _ Hi F4 H5) as ((_&L5&_&_&D5)&_).
  apply quiet_redraw_nodes in H5 as P5; [|done..].
  assert (_to_listen_new_events w5 = false) as F5 by congruence.
  (* recomputation *)
  inv_bind H as u6 w6 H6 H.
  2:{ destruct (update_nodes_inert _ _ _ _ _ Hi F5 H6) as ((_&_&_&_&?)&_).
      apply output_update_nodes in H6; [|done..]. split; congruence. }
  destruct (update_nodes_inert _ _ _ _ _ Hi F5 H6) as ((_&_&_&_&D6)&_).
  apply output_update_nodes in H6 as P6; [|done..].
  inv_bind H as u7 w7 H7 H; prim H7. prim H. simpl. split; congruence.
Qed.

Lemma quiet_add_new_event depth ev : quiet (add_new_event depth ev).
Proof.
  intros w r w' Hd H. destruct (_to_listen_new_events w) eqn:Hw.
  - rewrite add_new_event_listening in H by done.
    unfold arrive in H. rewrite Hd in H.
    by apply (quiet_handle_new_event _ (nested_inert depth)) in H.
  - rewrite add_new_event_suppressed in H by done. by simplify_eq.
Qed.

(** X19. With debug mode off the module prints nothing, whatever events
    arrive and however their ingestion ends, and it never turns debug mode
    on. *)
Theorem nothing_is_printed_without_debug :
  forall (depth : nat) (evs : list BlenderEvent) (w : World)
         (r : Result unit) (w' : World),
    debug_mode w = false ->
    ingest_all depth evs w = (r, w') ->
    printed w' = printed w /\ debug_mode w' = false.
Proof.
  intros depth evs w r w' Hd H.
  eapply (quiet_for_each (add_new_event depth)); [|exact Hd|exact H].
  intros ev. apply quiet_add_new_event.
Qed.

End Quiet.

(** ** The module with the two methods as the source has them *)

Lemma elided_lookup_keeps_no_nodes o : keeps_no_nodes (elided_lookup o).
Proof. intros m r m' Hm H. unfold elided_lookup in H. by simplify_eq. Qed.

Lemma elided_known_events_keeps_no_nodes wv :
  keeps_no_nodes (elided_known_events wv).
Proof. intros m r m' Hm H. unfold elided_known_events in H. by simplify_eq. Qed.


Section Written.

Variable callables : Callable -> list PyValue -> list Action.
Variable engine : list (option Node) -> list Action.
Let C : Collaborators := as_written callables engine.

Lemma previous_tree_written wv ev0 rest w :
  events_wave wv = ev0 :: rest ->
  previous_tree (C:=C) wv w = (Ok None, w).
Proof.
  intros E. unfold previous_tree. rewrite E.
  rewrite (bind_ok _ _ w ev0 w) by done.
  unfold lift_store. simpl. by destruct w.
Qed.

Lemma links_difference_written wv ev0 rest w :
  events_wave wv = ev0 :: rest ->
  links_difference (C:=C) wv w = (Raised (AttributeError "links"), w).
Proof.
  intros E. unfold links_difference, current_tree. rewrite E. simpl.
  rewrite (bind_ok _ _ w (tree ev0) w) by done.
  destruct (tree ev0) as [bl_tree|]; [|done]. simpl.
  rewrite (bind_ok _ _ w bl_tree w) by done.
  by rewrite (bind_ok _ _ _ _ _ (previous_tree_written wv ev0 rest w E)).
Qed.

Lemma analyze_changes_written wv ev0 rest w :
  events_wave wv = ev0 :: rest ->
  analyze_changes (C:=C) wv w
  = (if BlenderEventsTypes.eqb (type ev0) BlenderEventsTypes.tree_update
        || BlenderEventsTypes.eqb (type ev0) BlenderEventsTypes.monad_tree_update
     then Raised (AttributeError "links") else Ok tt, w).
Proof.
  intros E. unfold analyze_changes. rewrite E. simpl.
  rewrite (bind_ok _ _ w ev0 w) by done.
  destruct (_ || _).
  - by rewrite (bind_raised _ _ _ _ _ (links_difference_written wv ev0 rest w E)).
  - by repeat destruct (BlenderEventsTypes.eqb _ _).
Qed.



Lemma convert_written wv ev0 rest w :
  is_end wv = Ok true ->
  events_wave wv = ev0 :: rest ->
  (exists evs, convert_to_sverchok_events (C:=C) wv w = (Ok evs, w))
  \/ convert_to_sverchok_events (C:=C) wv w = (Raised (AttributeError "links"), w).
Proof.
  intros Hend E. unfold convert_to_sverchok_events.
  rewrite (bind_ok _ _ w true w) by (unfold lift_result; by rewrite Hend).
  simpl.
  destruct (index_last (events_wave wv)) as [last_ev|e] eqn:El.
  2:{ unfold is_end in Hend. by rewrite E, <- E, El in Hend. }
  rewrite (bind_ok _ _ w last_ev w) by done.
  destruct (_ || _); [|left; by eexists].
  pose proof (analyze_changes_written wv ev0 rest w E) as Ha.
  destruct (_ || _).
  - right. by rewrite (bind_raised _ _ _ _ _ Ha).
  - left. rewrite (bind_ok _ _ _ _ _ Ha).
    unfold lift_store. simpl. eexists. by destruct w.
Qed.

Lemma written_terminator depth bl_event w :
  _to_listen_new_events w = true ->
  terminator (type bl_event) = true ->
  exists name,
    add_new_event (C:=C) depth bl_event w
    = (Raised (AttributeError name), set_to_listen false (arrive bl_event w))
    /\ (name = "links" \/ name = "update_reconstruction").
Proof.
  intros Hw Ht.
  assert (type bl_event <> BlenderEventsTypes.node_update) as Hnu.
  { intros E. by rewrite E in Ht. }
  destruct (arrive_fields bl_event w) as (_&_&_&_&_&Hwave).
  pose proof (add_event_other (current_wave w) bl_event Hnu) as Hadd.
  assert (is_end (current_wave (arrive bl_event w)) = Ok true) as E.
  { rewrite Hwave, is_end_add_event. by destruct (type bl_event). }
  assert (exists ev0 rest,
             events_wave (current_wave (arrive bl_event w)) = ev0 :: rest)
    as (ev0 & rest & Hfirst).
  { rewrite Hwave, Hadd. destruct (events_wave (current_wave w)); by eexists _, _. }
  rewrite add_new_event_listening by done.
  set (wa := arrive bl_event w) in *. clearbody wa.
  unfold handle_new_event.
  rewrite (bind_ok _ _ wa (current_wave wa) wa) by done.
  rewrite (bind_ok _ _ wa true wa) by (unfold lift_result; by rewrite E).
  simpl.
  rewrite (bind_ok _ _ wa tt (set_to_listen false wa)) by done.
  set (wl := set_to_listen false wa).
  rewrite (bind_ok _ _ wl (current_wave wa) wl) by done.
  destruct (convert_written (current_wave wa) ev0 rest wl E Hfirst)
    as [[evs Hconv]|Hconv].
  - rewrite (bind_ok _ _ _ _ _ Hconv).
    assert (tree_reconstruction (C:=C) wl = (Ok None, wl)) as Htr.
    { unfold tree_reconstruction.
      rewrite (bind_ok _ _ wl (current_wave wl) wl) by done.
      by apply (previous_tree_written _ ev0 rest). }
    rewrite (bind_ok _ _ _ _ _ Htr).
    exists "update_reconstruction". split; [done | by right].
  - rewrite (bind_raised _ _ _ _ _ Hconv).
    exists "links". split; [done | by left].
Qed.

(** X20. With [get_node_tree_reconstruction] and [convert_known_events]
    as the source has them, bodies left out, the first event that ends a
    wave makes [add_new_event] raise [AttributeError]: no update function
    and no recomputation is called, no tree object is touched, and the
    scheduler is left not listening, so that every later event is
    dropped. *)
Theorem written_dispatch_raises :
  forall (depth : nat) (bl_event : BlenderEvent) (w : World),
    _to_listen_new_events w = true ->
    terminator (type bl_event) = true ->
    exists name,
      add_new_event (C:=C) depth bl_event w
      = (Raised (AttributeError name), set_to_listen false (arrive bl_event w))
      /\ (name = "links" \/ name = "update_reconstruction")
      /\ forall d ev,
          add_new_event (C:=C) d ev (set_to_listen false (arrive bl_event w))
          = (Ok tt, set_to_listen false (arrive bl_event w)).
Proof.
  intros depth ev w Hw Ht.
  destruct (written_terminator depth ev w Hw Ht) as (name & Hrun & Hname).
  exists name. split; [done|]. split; [done|].
  intros d ev'. by apply add_new_event_suppressed.
Qed.

End Written.

(** ** A whole wave, in every outcome *)


(** * The theorems at concrete inputs *)

Lemma run_pair {A} (c : M A) (w : World) : c w = (fst (c w), snd (c w)).
Proof. by destruct (c w). Qed.

(** Reconciliation raises during the dispatch, on the [None] that
    [get_node_tree_reconstruction] returns: the flag stays down and the
    next event is dropped. *)
Lemma flag_stays_down_after_raise :
  fst (add_new_event (C:=Example.written) 1
         (Example.property_event "plain") Example.start)
  = Raised (AttributeError "update_reconstruction")
  /\ _to_listen_new_events
       (snd (add_new_event (C:=Example.written) 1
               (Example.property_event "plain") Example.start))
     = false
  /\ add_new_event (C:=Example.written) 1 Example.undo_event
       (snd (add_new_event (C:=Example.written) 1
               (Example.property_event "plain") Example.start))
     = (Ok tt,
        snd (add_new_event (C:=Example.written) 1
               (Example.property_event "plain") Example.start)).
Proof. repeat apply conj; vm_compute; reflexivity. Qed.

Lemma flag_follows_completion_witness :
  _to_listen_new_events Example.start = true
  /\ _to_listen_new_events
       (snd (add_new_event (C:=Example.written) 1
               (Example.property_event "plain") Example.start))
     = false
  /\ forall d ev,
      add_new_event (C:=Example.written) d ev
        (snd (add_new_event (C:=Example.written) 1
                (Example.property_event "plain") Example.start))
      = (Ok tt,
         snd (add_new_event (C:=Example.written) 1
                (Example.property_event "plain") Example.start)).
Proof.
  split; [reflexivity|].
  destruct (flag_follows_completion (C:=Example.written) 1
              (Example.property_event "plain") Example.start _ _
              eq_refl (run_pair _ _)) as [_ H].
  destruct (H (AttributeError "update_reconstruction")) as (H1 & _ & _ & H4).
  - vm_compute. reflexivity.
  - split; [exact H1 | exact H4].
Defined.

Lemma empty_shadow_is_not_rebuilt_witness :
  node_trees Example.with_empty_shadow !! "G" = Some (SvTree_init "G")
  /\ search_node_groups (node_groups Example.with_empty_shadow) "G" = Some Example.G
  /\ length (tree_nodes Example.G) = 2
  /\ (exists w',
         update_reconstruction "G" None Example.with_empty_shadow = (Ok tt, w')
         /\ node_trees w' = node_trees Example.with_empty_shadow
         /\ printed w' = [])
  /\ (exists w',
         update_reconstruction "G" None
           (mkWorld EventsWave_init true {["G" := SvTree_init "G"]} [Example.G]
                    true [] [])
         = (Ok tt, w')
         /\ node_trees w' = {["G" := SvTree_init "G"]}
         /\ printed w' = [PrintText "!!! Reconstruction does not correct !!!"])
  /\ exists t' w',
      update_reconstruction "G" None Example.with_stale_shadow = (Ok tt, w')
      /\ node_trees w' = <["G" := t']> (node_trees Example.with_stale_shadow)
      /\ dom (nodes t')
         = dom (nodes Example.stale_shadow)
           ∪ list_to_set (map node_id (tree_nodes Example.G)).
Proof.
  split; [vm_compute; reflexivity|]. split; [reflexivity|]. split; [reflexivity|].
  split; [|split].
  - destruct (empty_shadow_is_not_rebuilt "G" None (SvTree_init "G") Example.G
                Example.with_empty_shadow) as [H _].
    + vm_compute. reflexivity.
    + reflexivity.
    + destruct H as (w' & H1 & H2 & H3); [reflexivity | discriminate |].
      exists w'. split; [exact H1|]. split; [exact H2 | exact H3].
  - destruct (empty_shadow_is_not_rebuilt "G" None (SvTree_init "G") Example.G
                (mkWorld EventsWave_init true {["G" := SvTree_init "G"]}
                         [Example.G] true [] [])) as [H _].
    + vm_compute. reflexivity.
    + reflexivity.
    + destruct H as (w' & H1 & H2 & H3); [reflexivity | discriminate |].
      exists w'. split; [exact H1|]. split; [exact H2 | exact H3].
  - destruct (empty_shadow_is_not_rebuilt "G" None Example.stale_shadow Example.G
                Example.with_stale_shadow) as [_ H].
    + vm_compute. reflexivity.
    + reflexivity.
    + destruct H as (t' & w' & H1 & H2 & H3 & _).
      * intros E. apply (f_equal (fun m => m !! "n0")) in E.
        vm_compute in E. discriminate E.
      * repeat constructor; apply list_elem_of_In; simpl; auto.
      * exists t', w'. split; [exact H1|]. split; [exact H2 | exact H3].
Defined.







Lemma convert_before_end_raises_witness :
  convert_to_sverchok_events (C:=Example.written) EventsWave_init Example.start
  = (Raised (RuntimeError "You should waite wave end before calling this method"),
     Example.start)
  /\ convert_to_sverchok_events (C:=Example.written)
       (add_event EventsWave_init Example.add_node_event) Example.start
     = (Raised (RuntimeError "You should waite wave end before calling this method"),
        Example.start).
Proof.
  split.
  - apply (convert_before_end_raises (C:=Example.written)). left. reflexivity.
  - apply (convert_before_end_raises (C:=Example.written)). right.
    exists [], Example.add_node_event. split; reflexivity.
Defined.



Lemma node_update_leaves_wave_witness :
  type Example.node_update_event = BlenderEventsTypes.node_update
  /\ consistent Example.start
  /\ exists w',
      add_new_event (C:=Example.written) 1 Example.node_update_event Example.start
      = (Ok tt, w')
      /\ current_wave w' = current_wave Example.start.
Proof.
  assert (consistent Example.start) as Hc by (intros _; reflexivity).
  split; [reflexivity|]. split; [exact Hc|].
  destruct (node_update_leaves_wave (C:=Example.written) EventsWave_init 1
              Example.node_update_event Example.start eq_refl Hc)
    as (_ & _ & H).
  exact H.
Defined.

Lemma empty_wave_is_not_ended_witness :
  events_wave (current_wave Example.start) = []
  /\ exists w',
      add_new_event (C:=Example.written) 1 Example.node_update_event Example.start
      = (Ok tt, w')
      /\ current_wave w' = current_wave Example.start
      /\ calls w' = calls Example.start
      /\ node_trees w' = node_trees Example.start
      /\ _to_listen_new_events w' = _to_listen_new_events Example.start.
Proof.
  split; [reflexivity|].
  destruct (empty_wave_is_not_ended (C:=Example.written) 1
              Example.node_update_event Example.start false false false false)
    as [_ H].
  destruct (H eq_refl eq_refl) as [H1 _]. exact H1.
Defined.

(** * The further properties at concrete inputs *)

Lemma G_links_join_nodes : links_join_nodes Example.G.
Proof. repeat constructor; apply list_elem_of_In; simpl; auto. Qed.

Lemma get_blender_tree_finds_the_first_witness :
  node_trees Example.with_empty_shadow !! "G" = Some (SvTree_init "G")
  /\ exists ng,
      get_blender_tree "G" Example.with_empty_shadow
      = (Ok ng, Example.with_empty_shadow)
      /\ tree_id ng = "G".
Proof.
  split; [vm_compute; reflexivity|].
  destruct (get_blender_tree_finds_the_first "G" (SvTree_init "G")
              Example.with_empty_shadow)
    as [(ng & before & after & H & _ & _ & Hid & _)|[H _]].
  - vm_compute. reflexivity.
  - exists ng. split; [exact H | exact Hid].
  - vm_compute in H. discriminate H.
Defined.

Lemma links_add_missing_end_witness :
  node_trees Example.with_empty_shadow !! "G" = Some (SvTree_init "G")
  /\ LinksCollection_add "G" Example.wire Example.with_empty_shadow
     = (Raised (KeyError "n1"), Example.with_empty_shadow).
Proof.
  split; [vm_compute; reflexivity|].
  destruct (links_add_missing_end "G" (SvTree_init "G") Example.wire
              Example.with_empty_shadow) as [H _].
  - vm_compute. reflexivity.
  - apply H. simpl. rewrite dom_empty_L. apply not_elem_of_empty.
Defined.

Lemma links_add_registers_three_times_witness :
  exists t',
    LinksCollection_add "G" Example.wire Further.before_linking
    = (Ok tt, set_node_trees (<["G" := t']> (node_trees Further.before_linking))
                Further.before_linking)
    /\ links t' !! "n1.outn2.in" = Some (mkSvLink "n1.outn2.in" "n1" "n2").
Proof.
  destruct (links_add_registers_three_times "G" Further.with_both_nodes
              Example.wire Further.before_linking)
    as (t' & fn & tn & H1 & H2 & _).
  - vm_compute. reflexivity.
  - apply elem_of_dom. eexists. vm_compute. reflexivity.
  - apply elem_of_dom. eexists. vm_compute. reflexivity.
  - exists t'. split; [exact H1 | exact H2].
Defined.

Lemma total_reconstruction_wires_links_witness :
  exists t',
    node_trees (snd (total_reconstruction "G" Example.with_empty_shadow))
    = <["G" := t']> (node_trees Example.with_empty_shadow)
    /\ wired t'.
Proof.
  apply (total_reconstruction_wires_links "G" (SvTree_init "G")
           Example.with_empty_shadow).
  - vm_compute. reflexivity.
  - reflexivity.
  - vm_compute. reflexivity.
Defined.

Lemma total_reconstruction_twice_witness :
  exists t1 w1 t2 w2,
    total_reconstruction "G" Example.with_stale_shadow = (Ok tt, w1)
    /\ node_trees w1 !! "G" = Some t1
    /\ total_reconstruction "G" w1 = (Ok tt, w2)
    /\ node_trees w2 !! "G" = Some t2
    /\ dom (nodes t2) = dom (nodes t1)
    /\ dom (links t2) = dom (links t1).
Proof.
  destruct (total_reconstruction_twice "G" Example.stale_shadow Example.G
              Example.with_stale_shadow)
    as (t1 & w1 & t2 & w2 & H1 & H2 & H3 & H4 & _ & _ & _ & _ & H5 & H6).
  - vm_compute. reflexivity.
  - reflexivity.
  - apply G_links_join_nodes.
  - exists t1, w1, t2, w2.
    split; [exact H1|]. split; [exact H2|]. split; [exact H3|].
    split; [exact H4|]. split; [exact H5 | exact H6].
Defined.

Lemma check_after_first_reconstruction_witness :
  exists w',
    (total_reconstruction "G" ;; check_reconstruction_correctness "G")
      Example.with_empty_shadow = (Ok tt, w')
    /\ printed w' = [PrintText "Reconstruction is correct"].
Proof.
  apply (check_after_first_reconstruction "G" (SvTree_init "G") Example.G
           Example.with_empty_shadow).
  - vm_compute. reflexivity.
  - reflexivity.
  - reflexivity.
  - reflexivity.
  - apply G_links_join_nodes.
Defined.

Lemma stale_node_is_reported_witness :
  exists t' w',
    update_reconstruction "G" None Further.debugging = (Ok tt, w')
    /\ node_trees w' !! "G" = Some t'
    /\ "n0" ∈ dom (nodes t')
    /\ printed w' = [PrintText "!!! Reconstruction does not correct !!!"].
Proof.
  apply (stale_node_is_reported "G" None Example.stale_shadow Example.G "n0"
           Further.debugging).
  - vm_compute. reflexivity.
  - apply elem_of_dom. eexists. vm_compute. reflexivity.
  - intros H. apply list_elem_of_In in H. simpl in H.
    destruct H as [H|[H|[]]]; discriminate H.
  - reflexivity.
  - apply G_links_join_nodes.
  - reflexivity.
Defined.

Lemma update_reconstruction_without_graph_witness :
  update_reconstruction "G" None Further.orphaned
  = (Raised (LookupError
       "Looks like some node tree has disappeared, or its ID has changed"),
     Further.orphaned).
Proof.
  rewrite (update_reconstruction_without_graph "G" None Example.stale_shadow
             Further.orphaned).
  - vm_compute. reflexivity.
  - vm_compute. reflexivity.
  - reflexivity.
Defined.

Lemma at_most_one_process_per_event_witness :
  exists cs,
    calls (snd (add_new_event (C:=Example.written) 1
                  (Example.property_event "raising") Example.start))
    = calls Example.start ++ cs
    /\ dispatch_calls cs.
Proof.
  destruct (at_most_one_process_per_event (C:=Example.written) 1
              (Example.property_event "raising") Example.start _ _
              (run_pair _ _)) as (cs & H1 & H2 & _).
  exists cs. split; [exact H1 | exact H2].
Defined.

Lemma ingest_keeps_consistent_witness :
  consistent Example.start
  /\ consistent
       (snd (ingest_all (C:=Example.written) 1
               (Example.burst ++ [Example.property_event "raising"])
               Example.start)).
Proof.
  assert (consistent Example.start) as H0 by (intros _; reflexivity).
  split; [exact H0|].
  destruct (ingest_keeps_consistent (C:=Example.written) 1
              (Example.burst ++ [Example.property_event "raising"])
              Example.start _ _ H0 (run_pair _ _)) as [H _].
  exact H.
Defined.

Lemma wave_collects_in_order_witness :
  exists w',
    ingest_all (C:=Example.written) 1 Example.burst Example.start = (Ok tt, w')
    /\ events_wave (current_wave w')
       = [Example.add_node_event; Example.add_link_event].
Proof.
  destruct (wave_collects_in_order (C:=Example.written) 1 Example.burst
              Example.start) as (w' & H1 & H2 & _).
  - reflexivity.
  - reflexivity.
  - repeat constructor.
  - exists w'. split; [exact H1|]. rewrite H2. vm_compute. reflexivity.
Defined.

Lemma shadows_stay_without_nodes_witness :
  no_nodes (node_trees Example.start)
  /\ no_nodes
       (node_trees
          (snd (ingest_all (C:=Example.written) 1
                  (Example.burst ++ [Example.tree_update_event])
                  Example.start))).
Proof.
  assert (no_nodes (node_trees Example.start)) as H0.
  { intros key t H. simpl in H. rewrite lookup_empty in H. discriminate H. }
  split; [exact H0|].
  apply (shadows_stay_without_nodes (C:=Example.written)
           elided_lookup_keeps_no_nodes elided_known_events_keeps_no_nodes
           1 (Example.burst ++ [Example.tree_update_event]) Example.start _ _
           H0 (run_pair _ _)).
Defined.

Lemma property_update_starts_a_dispatch_witness :
  fst (handel_update_call (C:=Example.written)
         (property_update "size" (Some "plain")) 1 Further.box_in_G Example.start)
  = Raised (AttributeError "update_reconstruction")
  /\ _to_listen_new_events
       (snd (handel_update_call (C:=Example.written)
               (property_update "size" (Some "plain")) 1 Further.box_in_G
               Example.start))
     = false
  /\ events_wave
       (current_wave
          (snd (handel_update_call (C:=Example.written)
                  (property_update "size" (Some "plain")) 1 Further.box_in_G
                  Example.start)))
     = [mkBlenderEvent BlenderEventsTypes.node_property_update (Some Example.G)
                       (Some Example.box) None (Some "plain")
                       [PyNode Example.box; PyContext]].
Proof.
  destruct (property_update_starts_a_dispatch (C:=Example.written)
              "size" (Some "plain") 1 Further.box_in_G Example.start _ _
              eq_refl (run_pair _ _)) as [_ Hr].
  destruct (Hr (AttributeError "update_reconstruction")) as [H1 H2].
  - vm_compute. reflexivity.
  - split; [vm_compute; reflexivity|]. split; [exact H1 | exact H2].
Defined.

Lemma nothing_is_printed_without_debug_witness :
  printed (snd (ingest_all (C:=Example.written) 1
                  (Example.burst ++ [Example.property_event "reentrant"])
                  Example.start)) = []
  /\ debug_mode (snd (ingest_all (C:=Example.written) 1
                        (Example.burst ++ [Example.property_event "reentrant"])
                        Example.start)) = false.
Proof.
  apply (nothing_is_printed_without_debug (C:=Example.written) 1
           (Example.burst ++ [Example.property_event "reentrant"])
           Example.start _ _ eq_refl (run_pair _ _)).
Defined.

Lemma written_dispatch_raises_witness :
  exists name,
    add_new_event (C:=Example.written) 1 (Example.property_event "plain")
      Example.start
    = (Raised (AttributeError name),
       set_to_listen false (arrive (Example.property_event "plain") Example.start))
    /\ (name = "links" \/ name = "update_reconstruction").
Proof.
  destruct (written_dispatch_raises Example.callables Example.engine 1
              (Example.property_event "plain") Example.start eq_refl eq_refl)
    as (name & H1 & H2 & _).
  exists name. split; [exact H1 | exact H2].
Defined.
